(** * avr-sts-gemini: the audio bridge of [index.js]

    A shallow embedding of the resampler ([upsample8kTo16k],
    [downsample24kTo8k]), of the model-name normalisation
    ([resolveLiveModel]) and of the stream controller
    ([handleAudioStream]) with its two pacing timers, followed by the
    statements of the design document, proved of them where they hold and
    evaluated where the code departs from them.

    JavaScript numbers are modelled as rationals ([Q]).  Every number the
    resampler computes is an integer, a half integer, or a buffer length
    divided by 2 and by 3; for buffers shorter than 2^53 bytes the
    comparisons, [Math.floor] and [Math.round] of the double-precision
    values agree with the exact ones. *)

From Stdlib Require Import ZArith NArith QArith Qround List Lia Bool String Ascii.
From Stdlib Require Import DecimalString.
From coqutil Require Import Byte Word.LittleEndianList.
Import ListNotations.
Local Open Scope Z_scope.

(** ** Completions: a call returns a value or throws *)

Inductive JsError : Type :=
| RangeError
| TypeError
| SyntaxError.

Inductive completion (A : Type) : Type :=
| Return (a : A)
| Throw (e : JsError).
Arguments Return {A} a.
Arguments Throw {A} e.

Definition bind {A B : Type} (c : completion A) (k : A -> completion B)
  : completion B :=
  match c with
  | Return a => k a
  | Throw e => Throw e
  end.

Declare Scope js_scope.
Delimit Scope js_scope with js.
Notation "x <- c ;; k" := (bind c (fun x => k))
  (at level 61, c at next level, right associativity) : js_scope.
Local Open Scope js_scope.

Definition returns {A : Type} (c : completion A) : Prop :=
  exists a, c = Return a.

(** ** Numbers *)

Definition Qltb (x y : Q) : bool := negb (Qle_bool y x).

(** [Math.round]: the nearest integer, halves going up. *)
Definition Math_round (x : Q) : Z := Qfloor (x + (1 # 2))%Q.
Definition Math_floor (x : Q) : Z := Qfloor x.
Definition Math_max (a b : Z) : Z := Z.max a b.
Definition Math_min (a b : Z) : Z := Z.min a b.

(** A number used as an index of a typed array: an element exists there
    only when the number is a non-negative integer. *)
Definition as_index (x : Q) : option nat :=
  if Qeq_bool x (inject_Z (Qfloor x)) && (0 <=? Qfloor x)
  then Some (Z.to_nat (Qfloor x)) else None.

(** [for (let i = 0; i < bound; i++) body]: the index is not assigned
    in any body of [index.js], so the loop runs [body] at
    i = 0, 1, ... for every integer below [bound]. *)
Fixpoint iterate {S : Type} (n : nat) (i : Z)
    (body : Z -> S -> completion S) (s : S) : completion S :=
  match n with
  | O => Return s
  | Datatypes.S n' => s' <- body i s ;; iterate n' (i + 1) body s'
  end.

Definition trip_count (bound : Q) : nat := Z.to_nat (Qceiling bound).

Definition for_lt {S : Type} (bound : Q)
    (body : Z -> S -> completion S) (s : S) : completion S :=
  iterate (trip_count bound) 0 body s.

(** ** Node.js [Buffer] *)

Definition Buffer : Type := list byte.

Definition Buffer_length (b : Buffer) : Z := Z.of_nat (List.length b).

(** [Buffer.alloc(size)]: zero filled; a negative size is refused. *)
Definition Buffer_alloc (size : Q) : completion Buffer :=
  if Qltb size 0%Q then Throw RangeError
  else Return (repeat Byte.x00 (Z.to_nat (Qfloor size))).

Definition Buffer_concat (l : list Buffer) : Buffer := List.concat l.

(** [buf.slice(start, end)] and [buf.slice(start)] for 0 <= start <= end. *)
Definition Buffer_slice (b : Buffer) (start stop : Z) : Buffer :=
  firstn (Z.to_nat (stop - start)) (skipn (Z.to_nat start) b).
Definition Buffer_slice_from (b : Buffer) (start : Z) : Buffer :=
  skipn (Z.to_nat start) b.

Definition int16_of_uint16 (v : Z) : Z :=
  if v <? 32768 then v else v - 65536.

(** [buf.readInt16LE(offset)]: both bytes must exist. *)
Definition readInt16LE (b : Buffer) (offset : Q) : completion Z :=
  match as_index offset with
  | None => Throw RangeError
  | Some k =>
      match nth_error b k, nth_error b (k + 1) with
      | Some first, Some last =>
          Return (int16_of_uint16 (le_combine [first; last]))
      | _, _ => Throw RangeError
      end
  end.

(** [buf.writeInt16LE(value, offset)]: the value must be a signed 16-bit
    integer and both bytes must lie inside the buffer. *)
Definition writeInt16LE (b : Buffer) (value : Z) (offset : Q)
  : completion Buffer :=
  if (value <? -32768) || (32767 <? value) then Throw RangeError
  else
    match as_index offset with
    | None => Throw RangeError
    | Some k =>
        if (k + 2 <=? List.length b)%nat
        then Return (firstn k b ++ le_split 2 value ++ skipn (k + 2) b)
        else Throw RangeError
    end.

(** ** The resampler *)

(** [upsample8kTo16k], index.js lines 26-67.  [None] is a null or
    undefined argument. *)
Definition upsample8kTo16k (audioBuffer : option Buffer) : completion Buffer :=
  match audioBuffer with
  | None => Buffer_alloc 0%Q
  | Some audioBuffer =>
    if Buffer_length audioBuffer =? 0 then Buffer_alloc 0%Q else
    let upsamplingFactor : Z := 2 in
    let bytesPerSample : Z := 2 in
    let inputSampleCount : Q :=
      (inject_Z (Buffer_length audioBuffer) / inject_Z bytesPerSample)%Q in
    if Qltb inputSampleCount 2%Q then Return audioBuffer else
    let outputSampleCount : Q :=
      (inputSampleCount * inject_Z upsamplingFactor)%Q in
    outputBuffer <- Buffer_alloc (outputSampleCount * inject_Z bytesPerSample)%Q ;;
    outputBuffer <-
      for_lt (inputSampleCount - 1)%Q
        (fun i outputBuffer =>
           currentSample <-
             readInt16LE audioBuffer (inject_Z (i * bytesPerSample)) ;;
           nextSample <-
             readInt16LE audioBuffer (inject_Z ((i + 1) * bytesPerSample)) ;;
           for_lt (inject_Z upsamplingFactor)
             (fun j outputBuffer =>
                let interpolationFactor : Q :=
                  (inject_Z j / inject_Z upsamplingFactor)%Q in
                let interpolatedSample : Z :=
                  Math_round
                    (inject_Z currentSample
                     + inject_Z (nextSample - currentSample)
                       * interpolationFactor)%Q in
                let clampedSample : Z :=
                  Math_max (-32768) (Math_min 32767 interpolatedSample) in
                let outputIndex : Z :=
                  (i * upsamplingFactor + j) * bytesPerSample in
                writeInt16LE outputBuffer clampedSample (inject_Z outputIndex))
             outputBuffer)
        outputBuffer ;;
    lastSample <-
      readInt16LE audioBuffer
        ((inputSampleCount - 1) * inject_Z bytesPerSample)%Q ;;
    outputBuffer <-
      for_lt (inject_Z upsamplingFactor)
        (fun j outputBuffer =>
           let outputIndex : Q :=
             (((inputSampleCount - 1) * inject_Z upsamplingFactor + inject_Z j)
              * inject_Z bytesPerSample)%Q in
           writeInt16LE outputBuffer lastSample outputIndex)
        outputBuffer ;;
    Return outputBuffer
  end.

(** [downsample24kTo8k], index.js lines 74-97. *)
Definition downsample24kTo8k (audioBuffer : option Buffer) : completion Buffer :=
  match audioBuffer with
  | None => Buffer_alloc 0%Q
  | Some audioBuffer =>
    if Buffer_length audioBuffer =? 0 then Buffer_alloc 0%Q else
    let downsamplingFactor : Z := 3 in
    let bytesPerSample : Z := 2 in
    let inputSampleCount : Q :=
      (inject_Z (Buffer_length audioBuffer) / inject_Z bytesPerSample)%Q in
    if Qltb inputSampleCount (inject_Z downsamplingFactor)
    then Return audioBuffer else
    let outputSampleCount : Z :=
      Math_floor (inputSampleCount / inject_Z downsamplingFactor) in
    outputBuffer <- Buffer_alloc (inject_Z (outputSampleCount * bytesPerSample)) ;;
    outputBuffer <-
      for_lt (inject_Z outputSampleCount)
        (fun i outputBuffer =>
           let inputIndex : Z := i * downsamplingFactor in
           sample <-
             readInt16LE audioBuffer (inject_Z (inputIndex * bytesPerSample)) ;;
           writeInt16LE outputBuffer sample (inject_Z (i * bytesPerSample)))
        outputBuffer ;;
    Return outputBuffer
  end.

(** The buffer of a list of samples, and the samples of a buffer. *)
Definition encode (samples : list Z) : Buffer := flat_map (le_split 2) samples.

Definition bytes_of (l : list Z) : Buffer := map byte.of_Z l.

(** Sample [k] of a buffer, as [readInt16LE] reads it at byte [2 * k]. *)
Definition sample_at (b : Buffer) (k : Z) : completion Z :=
  readInt16LE b (inject_Z (k * 2)).


(** ** Strings

    A JavaScript string is a sequence of UTF-16 code units. *)

Definition JsString : Type := list N.

Definition str (s : string) : JsString :=
  map N_of_ascii (list_ascii_of_string s).

(** The code units [String.prototype.trim] strips: WhiteSpace and
    LineTerminator of ECMA-262. *)
Definition isWhiteSpace (c : N) : bool :=
  (existsb (N.eqb c)
     [9; 10; 11; 12; 13; 32; 160; 5760; 8232; 8233; 8239; 8287; 12288; 65279]
   || ((8192 <=? c) && (c <=? 8202)))%N.

Fixpoint trimStart (s : JsString) : JsString :=
  match s with
  | [] => []
  | c :: s' => if isWhiteSpace c then trimStart s' else s
  end.

Definition trimEnd (s : JsString) : JsString := rev (trimStart (rev s)).

Definition trim (s : JsString) : JsString := trimEnd (trimStart s).

Fixpoint startsWith (s prefix : JsString) : bool :=
  match prefix, s with
  | [], _ => true
  | _ :: _, [] => false
  | p :: prefix', c :: s' => N.eqb c p && startsWith s' prefix'
  end.

Fixpoint includes (s needle : JsString) : bool :=
  startsWith s needle
  || match s with
     | [] => false
     | _ :: s' => includes s' needle
     end.

Definition JsString_eqb (a b : JsString) : bool :=
  (List.length a =? List.length b)%nat && startsWith a b.

(** [toLowerCase] restricted to what it does on ASCII text. *)
Definition ascii_toLowerCase (s : JsString) : JsString :=
  map (fun c => if ((65 <=? c) && (c <=? 90))%N then (c + 32)%N else c) s.

Section ResolveLiveModel.
(** [String.prototype.toLowerCase] follows the Unicode case tables of
    the runtime. *)
Variable toLowerCase : JsString -> JsString.

(** [resolveLiveModel], index.js lines 110-119.  [raw] is
    [process.env.GEMINI_MODEL]: a string, or [None] when unset. *)
Definition resolveLiveModel (raw : option JsString) : JsString :=
  let val := trim (match raw with Some r => r | None => str "" end) in
  match val with
  | [] => str "models/gemini-live-2.5-flash-preview"
  | _ :: _ =>
    let lower := toLowerCase val in
    if includes lower (str "flash-live")
    then str "models/gemini-live-2.5-flash-preview"
    else if includes lower (str "native-audio")
    then str "models/gemini-2.5-flash-preview-native-audio-dialog"
    else if startsWith lower (str "models/") then val
    else str "models/" ++ val
  end.
End ResolveLiveModel.

(** ** Values of parsed messages *)

Unset Elimination Schemes.
Inductive JsValue : Type :=
| JUndefined
| JNull
| JBool (b : bool)
| JNumber (q : Q)
| JString (s : JsString)
| JArray (items : list JsValue)
| JObject (fields : list (JsString * JsValue)).
Set Elimination Schemes.

(** ToBoolean. *)
Definition truthy (v : JsValue) : bool :=
  match v with
  | JUndefined | JNull => false
  | JBool b => b
  | JNumber q => negb (Qeq_bool q 0)
  | JString s => match s with [] => false | _ :: _ => true end
  | JArray _ | JObject _ => true
  end.

(** [a || b]. *)
Definition js_or (a b : JsValue) : JsValue := if truthy a then a else b.

Fixpoint own_property (fields : list (JsString * JsValue)) (key : JsString)
  : JsValue :=
  match fields with
  | [] => JUndefined
  | (k, v) :: rest => if JsString_eqb k key then v else own_property rest key
  end.

(** [v?.key] for the keys the handlers read ([delta], [audio],
    [inlineData], [data]): none of them is a property of a primitive, of
    an array or of [Object.prototype]. *)
Definition opt_get (v : JsValue) (key : string) : JsValue :=
  match v with
  | JObject fields => own_property fields (str key)
  | _ => JUndefined
  end.

(** ** The stream controller: [handleAudioStream], index.js lines 149-324 *)

(** [ws.readyState] of the ws package. *)
Inductive ReadyState : Type := CONNECTING | OPEN | CLOSING | CLOSED.

(** After a successful set-up exactly one of [session] and [ws] is set. *)
Inductive Transport : Type :=
| SdkSession
| RawSocket (readyState : ReadyState).

(** A timer made by [setInterval]. *)
Record Timer : Type := mkTimer {
  delay : Z;
  clearInterval_calls : nat
}.

(** The HTTP response [res]. *)
Record Response : Type := mkResponse {
  statusCode : Z;
  written : list Buffer;
  end_calls : nat
}.

Record State : Type := mkState {
  transport : option Transport;
  close_calls : nat;                 (* session.close() / ws.close() *)
  uplink : list Buffer;              (* frames given to the transport *)
  inputAudioBuffer : Buffer;
  outputAudioBuffer : Buffer;
  inputAudioBufferInterval : option Timer;
  outputAudioBufferInterval : option Timer;
  res : Response;
  wired : bool;                      (* set-up done: req.on / ws.on registered *)
  sdk_callbacks : bool;              (* sdkCallbacks given to the SDK *)
  console : list string
}.

Definition running (t : option Timer) : bool :=
  match t with
  | Some t => Nat.eqb (clearInterval_calls t) 0
  | None => false
  end.

Definition clearInterval (t : option Timer) : option Timer :=
  match t with
  | Some t => Some (mkTimer (delay t) (S (clearInterval_calls t)))
  | None => None
  end.

Definition log (msg : string) (st : State) : State :=
  mkState (transport st) (close_calls st) (uplink st) (inputAudioBuffer st)
    (outputAudioBuffer st) (inputAudioBufferInterval st)
    (outputAudioBufferInterval st) (res st) (wired st) (sdk_callbacks st)
    (console st ++ [msg]).

Definition set_inputAudioBuffer (b : Buffer) (st : State) : State :=
  mkState (transport st) (close_calls st) (uplink st) b
    (outputAudioBuffer st) (inputAudioBufferInterval st)
    (outputAudioBufferInterval st) (res st) (wired st) (sdk_callbacks st)
    (console st).

Definition set_outputAudioBuffer (b : Buffer) (st : State) : State :=
  mkState (transport st) (close_calls st) (uplink st) (inputAudioBuffer st)
    b (inputAudioBufferInterval st)
    (outputAudioBufferInterval st) (res st) (wired st) (sdk_callbacks st)
    (console st).

Definition send_frame (chunk : Buffer) (st : State) : State :=
  mkState (transport st) (close_calls st) (uplink st ++ [chunk])
    (inputAudioBuffer st) (outputAudioBuffer st) (inputAudioBufferInterval st)
    (outputAudioBufferInterval st) (res st) (wired st) (sdk_callbacks st)
    (console st).

Definition set_res (r : Response) (st : State) : State :=
  mkState (transport st) (close_calls st) (uplink st) (inputAudioBuffer st)
    (outputAudioBuffer st) (inputAudioBufferInterval st)
    (outputAudioBufferInterval st) r (wired st) (sdk_callbacks st)
    (console st).

Definition res_write (chunk : Buffer) (st : State) : State :=
  set_res
    (mkResponse (statusCode (res st)) (written (res st) ++ [chunk])
       (end_calls (res st))) st.

Definition res_end (st : State) : State :=
  set_res
    (mkResponse (statusCode (res st)) (written (res st))
       (S (end_calls (res st)))) st.

Definition res_status (code : Z) (st : State) : State :=
  set_res (mkResponse code (written (res st)) (end_calls (res st))) st.

Definition clear_both_intervals (st : State) : State :=
  mkState (transport st) (close_calls st) (uplink st) (inputAudioBuffer st)
    (outputAudioBuffer st) (clearInterval (inputAudioBufferInterval st))
    (clearInterval (outputAudioBufferInterval st)) (res st) (wired st)
    (sdk_callbacks st) (console st).

Definition set_transport (t : option Transport) (st : State) : State :=
  mkState t (close_calls st) (uplink st) (inputAudioBuffer st)
    (outputAudioBuffer st) (inputAudioBufferInterval st)
    (outputAudioBufferInterval st) (res st) (wired st) (sdk_callbacks st)
    (console st).

(** The ws package moves [ws.readyState]. *)
Definition set_readyState (r : ReadyState) (st : State) : State :=
  match transport st with
  | Some (RawSocket _) => set_transport (Some (RawSocket r)) st
  | _ => st
  end.

(** [session.close()] or [ws.close()], whichever is set; an open or
    connecting socket starts its closing handshake. *)
Definition close_transport (st : State) : State :=
  match transport st with
  | None => st
  | Some t =>
      mkState
        (match t with
         | RawSocket CONNECTING | RawSocket OPEN => Some (RawSocket CLOSING)
         | _ => Some t
         end)
        (S (close_calls st)) (uplink st) (inputAudioBuffer st)
        (outputAudioBuffer st) (inputAudioBufferInterval st)
        (outputAudioBufferInterval st) (res st) (wired st)
        (sdk_callbacks st) (console st)
  end.

(** [const INTERVAL_MS = parseInt(process.env.INTERVAL_MS) || 20];
    [parsed] is the result of [parseInt], [None] for NaN. *)
Definition INTERVAL_MS (parsed : option Z) : Z :=
  match parsed with
  | Some n => if n =? 0 then 20 else n
  | None => 20
  end.

Definition INPUT_CHUNK_BYTES_16K_100MS : Z := 3200.

(** What the environment decides during the set-up. *)
Record Setup : Type := mkSetup {
  explicitWsUrl : option JsString;   (* process.env.GEMINI_WS_URL *)
  connect_throws : bool;             (* new WebSocket / connectToGeminiSdk *)
  silence_throws : bool;             (* the first sendRealtimeInput *)
  parsed_INTERVAL_MS : option Z
}.

Definition initial_state : State :=
  mkState None 0 [] [] [] None None (mkResponse 200 [] 0) false false [].

(** [connectToGeminiSdk(sdkCallbacks)] is called: from here on the SDK
    may run the callbacks. *)
Definition give_sdk_callbacks (st : State) : State :=
  mkState (transport st) (close_calls st) (uplink st) (inputAudioBuffer st)
    (outputAudioBuffer st) (inputAudioBufferInterval st)
    (outputAudioBufferInterval st) (res st) (wired st) true (console st).

(** Lines 225-260 and the registrations of lines 262-323: the empty
    buffers, the two [setInterval] calls, the listeners. *)
Definition start_streaming (parsed : option Z) (st : State) : State :=
  mkState (transport st) (close_calls st) (uplink st) [] []
    (Some (mkTimer 100 0)) (Some (mkTimer (INTERVAL_MS parsed) 0))
    (res st) true (sdk_callbacks st) (console st).

(** The [catch] of lines 219-223. *)
Definition connect_failed (st : State) : State :=
  res_end (res_status 502 (log "Failed to establish Gemini session:" st)).

(** [handleAudioStream] up to its first return to the event loop with
    everything set up, lines 150-323.  The console holds the lines
    [handleAudioStream] and its callbacks write. *)
Definition handleAudioStream (env : Setup) : State :=
  let st := log "New audio stream received (Gemini)" initial_state in
  match explicitWsUrl env with
  | Some (_ :: _) =>
      let st := log "Connecting to Gemini Live WS (explicit):" st in
      if connect_throws env then connect_failed st
      else
        start_streaming (parsed_INTERVAL_MS env)
          (set_transport (Some (RawSocket CONNECTING)) st)
  | _ =>
      let st := give_sdk_callbacks st in
      if connect_throws env then connect_failed st
      else
        let st :=
          log "Gemini Live session established via SDK"
            (set_transport (Some SdkSession) st) in
        let st := send_frame (repeat Byte.x00 (Z.to_nat 3200)) st in
        let st :=
          if silence_throws env
          then log "Error sending initial silence:" st else st in
        start_streaming (parsed_INTERVAL_MS env) st
  end.

(** The callback of [inputAudioBufferInterval], lines 232-252.
    [send_throws]: the transport's send call fails. *)
Definition inputAudioBufferInterval_tick (send_throws : bool) (st : State)
  : State :=
  if INPUT_CHUNK_BYTES_16K_100MS <=? Buffer_length (inputAudioBuffer st)
  then
    let chunk := Buffer_slice (inputAudioBuffer st) 0 INPUT_CHUNK_BYTES_16K_100MS in
    let st :=
      set_inputAudioBuffer
        (Buffer_slice_from (inputAudioBuffer st) INPUT_CHUNK_BYTES_16K_100MS) st in
    match transport st with
    | Some SdkSession | Some (RawSocket OPEN) =>
        let st := send_frame chunk st in
        if send_throws then log "Error sending audio to Gemini:" st else st
    | _ => st
    end
  else st.

(** The callback of [outputAudioBufferInterval], lines 254-260. *)
Definition outputAudioBufferInterval_tick (st : State) : State :=
  if 320 <=? Buffer_length (outputAudioBuffer st)
  then
    let chunk := Buffer_slice (outputAudioBuffer st) 0 320 in
    let st := res_write chunk st in
    set_outputAudioBuffer (Buffer_slice_from (outputAudioBuffer st) 320) st
  else st.

(** [message?.delta || message?.audio || message?.inlineData?.data],
    line 273. *)
Definition audio_field (message : JsValue) : JsValue :=
  js_or (opt_get message "delta")
    (js_or (opt_get message "audio")
       (opt_get (opt_get message "inlineData") "data")).

(** The "data" listener of the request, lines 306-309. *)
Definition req_on_data (chunk : Buffer) (st : State) : completion State :=
  resampled <- upsample8kTo16k (Some chunk) ;;
  Return (set_inputAudioBuffer
            (Buffer_concat [inputAudioBuffer st; resampled]) st).

(** The "end" and "error" listeners of the request, lines 311-323. *)
Definition req_on_end (st : State) : State :=
  close_transport (log "Request stream ended (Gemini)" st).

Definition req_on_error (st : State) : State :=
  close_transport (log "Request error (Gemini):" st).

(** The "close" and "error" listeners of the raw socket, lines 288-300. *)
Definition ws_on_close (st : State) : State :=
  res_end (clear_both_intervals (log "WebSocket connection closed (Gemini)" st)).

Definition ws_on_error (st : State) : State :=
  res_end (clear_both_intervals (log "WebSocket error (Gemini):" st)).

(** [sdkCallbacks.onmessage], lines 161-192: every audio payload of the
    message is downsampled and appended; an exception inside is logged.
    [payloads] are the decoded payloads the message carries, in order,
    [throws] tells whether the handler then meets an exception. *)
Fixpoint sdk_append (payloads : list Buffer) (st : State) : State :=
  match payloads with
  | [] => st
  | decoded :: rest =>
      match downsample24kTo8k (Some decoded) with
      | Return resampled =>
          sdk_append rest
            (set_outputAudioBuffer
               (Buffer_concat [outputAudioBuffer st; resampled]) st)
      | Throw _ => log "SDK onmessage error:" st
      end
  end.

(** Until line 226 has run, [outputAudioBuffer] is not initialised: the
    first payload ends in a ReferenceError, which the handler logs. *)
Definition sdk_onmessage (payloads : list Buffer) (throws : bool)
    (st : State) : State :=
  if wired st then
    let st := sdk_append payloads st in
    if throws then log "SDK onmessage error:" st else st
  else
    match payloads with
    | [] => if throws then log "SDK onmessage error:" st else st
    | _ :: _ => log "SDK onmessage error:" st
    end.

(** What the event loop can deliver to one controller. *)
Inductive Event : Type :=
| InputTick (send_throws : bool)
| OutputTick
| ReqData (chunk : Buffer)
| ReqEnd
| ReqError
| WsOpen
| WsMessage (parsed : completion JsValue)
| WsClose
| WsError
| SdkOpen
| SdkMessage (payloads : list Buffer) (throws : bool)
| SdkError
| SdkClose.

Definition is_ws (st : State) : bool :=
  match transport st with Some (RawSocket _) => wired st | _ => false end.

Section Handlers.
(** [Buffer.from(value, "base64")] of the runtime: the decoded bytes of
    a string, a [TypeError] for most other values. *)
Variable Buffer_from_base64 : JsValue -> completion Buffer.

(** The "message" listener of the raw socket, lines 269-282.  [parsed]
    is what [JSON.parse(data)] gives: a value, or a thrown
    [SyntaxError]. *)
Definition ws_on_message (parsed : completion JsValue) (st : State) : State :=
  let attempt : completion State :=
    message <- parsed ;;
    let base64 := audio_field message in
    if truthy base64 then
      decoded <- Buffer_from_base64 base64 ;;
      resampled <- downsample24kTo8k (Some decoded) ;;
      Return (set_outputAudioBuffer
                (Buffer_concat [outputAudioBuffer st; resampled]) st)
    else Return st in
  match attempt with
  | Return st' => st'
  | Throw _ => log "Error processing explicit WS message:" st
  end.

(** One callback run to its end.  A listener that is not registered, or
    a tick of a timer that is not running, is never delivered: the state
    stays as it is.  [Throw] is an exception no handler catches. *)
Definition deliver (e : Event) (st : State) : completion State :=
  match e with
  | InputTick send_throws =>
      Return (if running (inputAudioBufferInterval st)
              then inputAudioBufferInterval_tick send_throws st else st)
  | OutputTick =>
      Return (if running (outputAudioBufferInterval st)
              then outputAudioBufferInterval_tick st else st)
  | ReqData chunk => if wired st then req_on_data chunk st else Return st
  | ReqEnd => Return (if wired st then req_on_end st else st)
  | ReqError => Return (if wired st then req_on_error st else st)
  | WsOpen =>
      Return (if is_ws st
              then set_readyState OPEN
                     (log "WebSocket connected to Gemini Live (explicit URL)" st)
              else st)
  | WsMessage parsed => Return (if is_ws st then ws_on_message parsed st else st)
  | WsClose =>
      Return (if is_ws st then ws_on_close (set_readyState CLOSED st) else st)
  | WsError =>
      Return (if is_ws st then ws_on_error (set_readyState CLOSING st) else st)
  | SdkOpen =>
      Return (if sdk_callbacks st then log "Gemini SDK session opened" st else st)
  | SdkMessage payloads throws =>
      Return (if sdk_callbacks st then sdk_onmessage payloads throws st else st)
  | SdkError =>
      Return (if sdk_callbacks st then log "Gemini SDK session error:" st else st)
  | SdkClose =>
      Return (if sdk_callbacks st then log "Gemini SDK session closed" st else st)
  end.

Fixpoint run (events : list Event) (st : State) : completion State :=
  match events with
  | [] => Return st
  | e :: rest => st' <- deliver e st ;; run rest st'
  end.
End Handlers.

(** Two states that differ at most in the lines of the console. *)
Definition same_but_console (a b : State) : Prop :=
  transport a = transport b
  /\ close_calls a = close_calls b
  /\ uplink a = uplink b
  /\ inputAudioBuffer a = inputAudioBuffer b
  /\ outputAudioBuffer a = outputAudioBuffer b
  /\ inputAudioBufferInterval a = inputAudioBufferInterval b
  /\ outputAudioBufferInterval a = outputAudioBufferInterval b
  /\ res a = res b
  /\ wired a = wired b
  /\ sdk_callbacks a = sdk_callbacks b.

(** ** Specification-level views of the resampler *)

(** Sample [i] of a buffer (zero bytes are read past the end). *)
Definition sample (b : Buffer) (i : nat) : Z :=
  int16_of_uint16
    (le_combine [nth (2 * i) b Byte.x00; nth (2 * i + 1) b Byte.x00]).

(** The value the inner loop of [upsample8kTo16k] writes at step [j]. *)
Definition interpolated (cur next j : Z) : Z :=
  Math_max (-32768)
    (Math_min 32767
       (Math_round (inject_Z cur + inject_Z (next - cur) * (inject_Z j / 2))%Q)).

(** The output samples of [upsample8kTo16k] on a buffer of [n] samples. *)
Definition upsampled (b : Buffer) (n : nat) : list Z :=
  flat_map
    (fun i => [interpolated (sample b i) (sample b (i + 1)) 0;
               interpolated (sample b i) (sample b (i + 1)) 1])
    (seq 0 (n - 1))
  ++ [sample b (n - 1); sample b (n - 1)].

(** The output samples of [downsample24kTo8k]: [m] samples, every third. *)
Definition decimated (b : Buffer) (m : nat) : list Z :=
  map (fun i => sample b (3 * i)) (seq 0 m).

(** Every second sample of a buffer, starting with sample 0. *)
Fixpoint every_second_sample (b : Buffer) : Buffer :=
  match b with
  | x :: y :: _ :: _ :: rest => x :: y :: every_second_sample rest
  | _ => []
  end.

Ltac q_to_div :=
  unfold Qceiling, Qminus, Qopp, Math_round, Math_floor, Qfloor, Qplus,
    Qmult, Qdiv, Qinv, inject_Z; cbn;
  Z.div_mod_to_equations; lia.

(** The transports the uplink tick sends on. *)
Definition can_send (st : State) : bool :=
  match transport st with
  | Some SdkSession | Some (RawSocket OPEN) => true
  | _ => false
  end.

(** An inbound message the "message" listener finds no audio in: its
    text is not JSON, or none of [delta], [audio], [inlineData.data]
    holds a truthy value. *)
Definition unrecognised (parsed : completion JsValue) : Prop :=
  match parsed with
  | Throw _ => True
  | Return message => truthy (audio_field message) = false
  end.

(** ** Two set-ups used in the examples *)

(** No GEMINI_WS_URL: the SDK session, which connects. *)
Definition sdk_setup : Setup := mkSetup None false false None.

(** GEMINI_WS_URL set: the raw socket, whose constructor returns. *)
Definition ws_setup : Setup :=
  mkSetup (Some (str "wss://live.example/ws")) false false None.

(** The SDK session whose connect call throws. *)
Definition failing_setup : Setup := mkSetup None true false (Some 40).

(** ** The two byte streams of a session *)

(** The bytes written to the response so far, followed by the bytes
    still queued for it. *)
Definition downlink_stream (st : State) : Buffer :=
  List.concat (written (res st)) ++ outputAudioBuffer st.


(** Every frame written to the response has 320 bytes, every frame given
    to the transport has 3200. *)
Definition frames_sized (st : State) : Prop :=
  Forall (fun f => Buffer_length f = 320) (written (res st))
  /\ Forall (fun f => Buffer_length f = 3200) (uplink st).

(** [st'] is [st] with bytes appended to [outputAudioBuffer] and lines
    added to the console, and nothing else changed. *)
Definition only_downlink_appended (st st' : State) : Prop :=
  transport st' = transport st
  /\ close_calls st' = close_calls st
  /\ uplink st' = uplink st
  /\ inputAudioBuffer st' = inputAudioBuffer st
  /\ inputAudioBufferInterval st' = inputAudioBufferInterval st
  /\ outputAudioBufferInterval st' = outputAudioBufferInterval st
  /\ res st' = res st
  /\ wired st' = wired st
  /\ sdk_callbacks st' = sdk_callbacks st
  /\ exists tail, outputAudioBuffer st' = outputAudioBuffer st ++ tail.

(** Both queues hold whole 16-bit samples. *)
Definition sample_aligned (st : State) : Prop :=
  Z.even (Buffer_length (inputAudioBuffer st)) = true
  /\ Z.even (Buffer_length (outputAudioBuffer st)) = true.

(** An event whose audio, if it carries any, is made of whole samples. *)
Definition whole_samples (e : Event) : Prop :=
  match e with
  | ReqData chunk => Z.even (Buffer_length chunk) = true
  | SdkMessage payloads _ =>
      Forall (fun p => Z.even (Buffer_length p) = true) payloads
  | _ => True
  end.

(** ** The audio parts of an SDK message *)

Section InlineData.
(** [Buffer.from(value, "base64")], as for the raw socket. *)
Variable Buffer_from_base64 : JsValue -> completion Buffer.

End InlineData.

(** ** The set-up of the revision with tool calling, index.js lines 483-743 *)

Definition DEFAULT_INSTRUCTIONS : JsString :=
  str "You are a helpful assistant and answer in a friendly tone.".

(** The text line 720 appends; [\n] is code unit 10. *)
Definition phone_hint (tempPhone : JsString) : JsString :=
  [10%N]
  ++ str "If a validated phone number is required and not provided, default to "
  ++ tempPhone ++ str ".".

(** Lines 718-721: what [process.env.GEMINI_INSTRUCTIONS] holds after
    one request set up the SDK session, from what it held before;
    [None] is an unset variable. *)
Definition append_phone_hint (TEMP_PHONE_NUMBER GEMINI_INSTRUCTIONS
                                : option JsString) : option JsString :=
  let tempPhone :=
    trim (match TEMP_PHONE_NUMBER with Some p => p | None => str "" end) in
  match tempPhone with
  | [] => GEMINI_INSTRUCTIONS
  | _ :: _ =>
      Some ((match GEMINI_INSTRUCTIONS with
             | Some (c :: text) => c :: text
             | _ => DEFAULT_INSTRUCTIONS
             end) ++ phone_hint tempPhone)
  end.

(** [obj[key] = v] on the own properties of an object. *)
Definition object_set (fields : list (JsString * JsValue)) (key : JsString)
    (v : JsValue) : list (JsString * JsValue) :=
  if existsb (fun kv => JsString_eqb (fst kv) key) fields
  then map (fun kv => if JsString_eqb (fst kv) key then (fst kv, v) else kv)
         fields
  else fields ++ [(key, v)].

(** The property name of array index [i]: its decimal digits. *)
Definition index_key (i : nat) : JsString :=
  str (NilZero.string_of_uint (Nat.to_uint i)).

(** [{ ...target, ...source }]: the own enumerable properties of
    [source] are copied; those of an array are its indices, those of a
    string its code units by index; other primitives have none. *)
Definition spread (target : list (JsString * JsValue)) (source : JsValue)
  : list (JsString * JsValue) :=
  match source with
  | JObject fields =>
      fold_left (fun acc kv => object_set acc (fst kv) (snd kv)) fields target
  | JArray items =>
      fold_left (fun acc iv => object_set acc (index_key (fst iv)) (snd iv))
        (combine (seq 0 (List.length items)) items) target
  | JString s =>
      fold_left (fun acc iv => object_set acc (index_key (fst iv)) (snd iv))
        (combine (seq 0 (List.length s)) (map (fun c => JString [c]) s)) target
  | _ => target
  end.

(** The declarations pushed by [buildFunctionTools], lines 487-641. *)
Definition functionDeclarations : list JsValue :=
  [
    JObject
     [
      (str "name",
       JString (str "fetch_menu_items"));
      (str "description",
       JString (str "Fetches menu items. Use cached data when available. Call only if cache is empty or for fresh data."));
      (str "parameters",
       JObject
        [
         (str "type",
          JString (str "OBJECT"));
         (str "properties",
          JObject []);
         (str "required",
          JArray [])
        ])
     ];
    JObject
     [
      (str "name",
       JString (str "getCustomerByPhone"));
      (str "description",
       JString (str "Get the customer details from the database by providing the customer phone number. Use after validating the user's phone."));
      (str "parameters",
       JObject
        [
         (str "type",
          JString (str "OBJECT"));
         (str "properties",
          JObject
           [
            (str "phone",
             JObject
              [
               (str "type",
                JString (str "STRING"));
               (str "description",
                JString (str "The validated 11-digit phone number (digits only). If missing, fallback to TEMP_PHONE_NUMBER env if set."))
              ])
           ]);
         (str "required",
          JArray
           [
            JString (str "phone")
           ])
        ])
     ];
    JObject
     [
      (str "name",
       JString (str "CreateOrder"));
      (str "description",
       JString (str "Create order after customer confirms. Required: customer.customerID, orderDetails[{menuItemid, quantity, price}], totalAmount. Status='Pending', paymentMethod='Cash'"));
      (str "parameters",
       JObject
        [
         (str "type",
          JString (str "OBJECT"));
         (str "properties",
          JObject
           [
            (str "payload",
             JObject
              [
               (str "type",
                JString (str "OBJECT"));
               (str "description",
                JString (str "Order payload: {customer: {customerID}, orderDetails: [{menuItemid, quantity, price}], totalAmount, paymentMethod?, orderComments?}"))
              ])
           ]);
         (str "required",
          JArray
           [
            JString (str "payload")
           ])
        ])
     ];
    JObject
     [
      (str "name",
       JString (str "GetOrderByCustomerId"));
      (str "description",
       JString (str "Fetch all order details for a given customer ID. Use this when the user asks about their current or past orders."));
      (str "parameters",
       JObject
        [
         (str "type",
          JString (str "OBJECT"));
         (str "properties",
          JObject
           [
            (str "customer_id",
             JObject
              [
               (str "type",
                JString (str "NUMBER"));
               (str "description",
                JString (str "The unique identifier of the customer."))
              ])
           ]);
         (str "required",
          JArray
           [
            JString (str "customer_id")
           ])
        ])
     ];
    JObject
     [
      (str "name",
       JString (str "GetExtras"));
      (str "description",
       JString (str "Fetch all available extras offered by the restaurant. Use this whenever asked about extras or add-ons."));
      (str "parameters",
       JObject
        [
         (str "type",
          JString (str "OBJECT"));
         (str "properties",
          JObject []);
         (str "required",
          JArray [])
        ])
     ];
    JObject
     [
      (str "name",
       JString (str "UpdateOrderStatus"));
      (str "description",
       JString (str "Update the status and/or comments of an existing order. Status must be one of 'Pending', 'Completed', 'Cancelled'."));
      (str "parameters",
       JObject
        [
         (str "type",
          JString (str "OBJECT"));
         (str "properties",
          JObject
           [
            (str "orderId",
             JObject
              [
               (str "type",
                JString (str "NUMBER"));
               (str "description",
                JString (str "The unique identifier of the order."))
              ]);
            (str "status",
             JObject
              [
               (str "type",
                JString (str "STRING"));
               (str "description",
                JString (str "The new status of the order ('Pending' | 'Completed' | 'Cancelled')."))
              ]);
            (str "orderComments",
             JObject
              [
               (str "type",
                JString (str "STRING"));
               (str "description",
                JString (str "Updated comments for the order (optional)."))
              ])
           ]);
         (str "required",
          JArray
           [
            JString (str "orderId");
            JString (str "status")
           ])
        ])
     ];
    JObject
     [
      (str "name",
       JString (str "EditOrder"));
      (str "description",
       JString (str "Edit an existing order in the database. Use ONLY after confirming with the user which fields to update."));
      (str "parameters",
       JObject
        [
         (str "type",
          JString (str "OBJECT"));
         (str "properties",
          JObject
           [
            (str "payload",
             JObject
              [
               (str "type",
                JString (str "OBJECT"));
               (str "description",
                JString (str "The JSON payload for editing the order, including orderID."))
              ])
           ]);
         (str "required",
          JArray
           [
            JString (str "payload")
           ])
        ])
     ];
    JObject
     [
      (str "name",
       JString (str "DeleteOrder"));
      (str "description",
       JString (str "Delete an order created by the user by providing its order ID. Use this if the user explicitly asks to delete their order."));
      (str "parameters",
       JObject
        [
         (str "type",
          JString (str "OBJECT"));
         (str "properties",
          JObject
           [
            (str "orderId",
             JObject
              [
               (str "type",
                JString (str "NUMBER"));
               (str "description",
                JString (str "The unique identifier of the order to delete."))
              ])
           ]);
         (str "required",
          JArray
           [
            JString (str "orderId")
           ])
        ])
     ];
    JObject
     [
      (str "name",
       JString (str "CreateCustomer"));
      (str "description",
       JString (str "Create a new customer in the database. Use ONLY after the user provides full name, validated phone, and address."));
      (str "parameters",
       JObject
        [
         (str "type",
          JString (str "OBJECT"));
         (str "properties",
          JObject
           [
            (str "fullName",
             JObject
              [
               (str "type",
                JString (str "STRING"));
               (str "description",
                JString (str "The customer's full name."))
              ]);
            (str "phone",
             JObject
              [
               (str "type",
                JString (str "STRING"));
               (str "description",
                JString (str "The customer's validated 11-digit phone number (digits only). If missing, fallback to TEMP_PHONE_NUMBER env if set."))
              ]);
            (str "address",
             JObject
              [
               (str "type",
                JString (str "STRING"));
               (str "description",
                JString (str "The customer's delivery address."))
              ])
           ]);
         (str "required",
          JArray
           [
            JString (str "fullName");
            JString (str "phone");
            JString (str "address")
           ])
        ])
     ];
    JObject
     [
      (str "name",
       JString (str "GetCategories"));
      (str "description",
       JString (str "Fetch menu categories. Cached for session. Use for general suggestions or drink categories."));
      (str "parameters",
       JObject
        [
         (str "type",
          JString (str "OBJECT"));
         (str "properties",
          JObject []);
         (str "required",
          JArray [])
        ])
     ];
    JObject
     [
      (str "name",
       JString (str "GetCustomerById"));
      (str "description",
       JString (str "Get the customer details from the database by providing the customer ID. Use initially if a customer_id is available."));
      (str "parameters",
       JObject
        [
         (str "type",
          JString (str "OBJECT"));
         (str "properties",
          JObject
           [
            (str "customer_id",
             JObject
              [
               (str "type",
                JString (str "NUMBER"));
               (str "description",
                JString (str "The unique identifier of the customer."))
              ])
           ]);
         (str "required",
          JArray
           [
            JString (str "customer_id")
           ])
        ])
     ];
    JObject
     [
      (str "name",
       JString (str "ParseAndValidatePhoneNumber"));
      (str "description",
       JString (str "Parses and validates an Egyptian mobile phone number: removes non-digits; returns 11-digit number if valid; else Arabic error."));
      (str "parameters",
       JObject
        [
         (str "type",
          JString (str "OBJECT"));
         (str "properties",
          JObject
           [
            (str "phone_number",
             JObject
              [
               (str "type",
                JString (str "STRING"));
               (str "description",
                JString (str "The raw phone number string provided by the user."))
              ])
           ]);
         (str "required",
          JArray
           [
            JString (str "phone_number")
           ])
        ])
     ]
  ].

(** [buildFunctionTools], lines 483-653. *)
Definition buildFunctionTools : JsValue :=
  JObject
    [(str "tools",
      JArray [JObject [(str "functionDeclarations",
                        JArray functionDeclarations)]]);
     (str "toolConfig",
      JObject [(str "functionCallingConfig",
                JObject [(str "mode", JString (str "ANY"))])])].

(** The [config] of lines 730-737, given [Modality.AUDIO] of the SDK
    and [process.env.GEMINI_INSTRUCTIONS]. *)
Definition live_config (Modality_AUDIO : JsValue)
    (GEMINI_INSTRUCTIONS : option JsString) : JsValue :=
  let tools := opt_get buildFunctionTools "tools" in
  let toolConfig := opt_get buildFunctionTools "toolConfig" in
  JObject
    (spread
       (spread
          [(str "responseModalities", JArray [Modality_AUDIO]);
           (str "systemInstruction",
            JString (match GEMINI_INSTRUCTIONS with
                     | Some (c :: text) => c :: text
                     | _ => DEFAULT_INSTRUCTIONS
                     end))]
          tools)
       toolConfig).

Ltac state_fields :=
  unfold req_on_end, req_on_error, ws_on_close, ws_on_error, close_transport,
    clear_both_intervals, res_end, res_status, res_write, set_res, send_frame,
    set_readyState, set_transport, set_inputAudioBuffer,
    set_outputAudioBuffer, give_sdk_callbacks, log;
  cbn [transport close_calls uplink inputAudioBuffer outputAudioBuffer
       inputAudioBufferInterval outputAudioBufferInterval res wired
       sdk_callbacks console statusCode written end_calls].

(** * Properties *)

(** ** Numbers *)

Lemma Qltb_lt (x y : Q) : Qltb x y = true <-> (x < y)%Q.
Proof.
  unfold Qltb. rewrite negb_true_iff.
  split; intro H.
  - apply Qnot_le_lt. intro Hle. apply Qle_bool_iff in Hle. congruence.
  - destruct (Qle_bool y x) eqn:E; [|reflexivity].
    apply Qle_bool_iff in E. exfalso. exact (Qlt_not_le _ _ H E).
Qed.

Lemma Qltb_ge (x y : Q) : Qltb x y = false <-> (y <= x)%Q.
Proof.
  unfold Qltb. rewrite negb_false_iff. apply Qle_bool_iff.
Qed.

Lemma inject_Z_eq (a b : Z) : a = b -> (inject_Z a == inject_Z b)%Q.
Proof. intros ->. reflexivity. Qed.

Lemma as_index_Qeq (x y : Q) : (x == y)%Q -> as_index x = as_index y.
Proof.
  intro H. unfold as_index.
  assert (Hf : Qfloor x = Qfloor y) by (rewrite H; reflexivity).
  rewrite Hf.
  replace (Qeq_bool x (inject_Z (Qfloor y)))
    with (Qeq_bool y (inject_Z (Qfloor y))); [reflexivity|].
  destruct (Qeq_bool y _) eqn:E1, (Qeq_bool x _) eqn:E2; try reflexivity.
  - apply Qeq_bool_iff in E1. rewrite <- H in E1.
    apply Qeq_bool_iff in E1. congruence.
  - apply Qeq_bool_iff in E2. rewrite H in E2.
    apply Qeq_bool_iff in E2. congruence.
Qed.

Lemma as_index_nat (k : nat) : as_index (inject_Z (Z.of_nat k)) = Some k.
Proof.
  unfold as_index. rewrite Qfloor_Z.
  replace (Qeq_bool _ _) with true
    by (symmetry; apply Qeq_bool_iff; reflexivity).
  replace (0 <=? Z.of_nat k) with true by (symmetry; apply Z.leb_le; lia).
  simpl. now rewrite Nat2Z.id.
Qed.

Lemma as_index_of_nat (x : Q) (k : nat) :
  (x == inject_Z (Z.of_nat k))%Q -> as_index x = Some k.
Proof. intro H. rewrite (as_index_Qeq _ _ H). apply as_index_nat. Qed.

Lemma trip_count_nat (bound : Q) (k : nat) :
  (bound == inject_Z (Z.of_nat k))%Q -> trip_count bound = k.
Proof.
  intro H. unfold trip_count. rewrite H, Qceiling_Z. apply Nat2Z.id.
Qed.

(** The loop model runs the body exactly at the integers below the bound. *)
Lemma trip_count_spec (bound : Q) (i : nat) :
  (i < trip_count bound)%nat <-> (inject_Z (Z.of_nat i) < bound)%Q.
Proof.
  unfold trip_count. split; intro H.
  - assert (Hc : (Z.of_nat i <= Qceiling bound - 1)%Z) by lia.
    eapply Qle_lt_trans; [|apply Qceiling_lt].
    rewrite <- Zle_Qle. exact Hc.
  - assert (Hc : (Z.of_nat i < Qceiling bound)%Z).
    { rewrite Zlt_Qlt. eapply Qlt_le_trans; [exact H|apply Qle_ceiling]. }
    lia.
Qed.

(** ** Loops *)

(** An invariant carried through [iterate]: the loop returns. *)
Lemma iterate_invariant {S : Type} (P : nat -> S -> Prop)
    (body : Z -> S -> completion S) (n : nat) :
  forall (k : nat) (s : S),
    P k s ->
    (forall i s, (k <= i < k + n)%nat -> P i s ->
       exists s', body (Z.of_nat i) s = Return s' /\ P (Datatypes.S i) s') ->
    exists s', iterate n (Z.of_nat k) body s = Return s' /\ P (k + n)%nat s'.
Proof.
  induction n as [|n IH]; intros k s HP Hstep.
  - exists s. split; [reflexivity|]. now rewrite Nat.add_0_r.
  - destruct (Hstep k s ltac:(lia) HP) as [s1 [Hb HP1]].
    destruct (IH (Datatypes.S k) s1 HP1) as [s2 [Hit HP2]].
    { intros i s0 Hi. apply Hstep. lia. }
    exists s2. split.
    + simpl. rewrite Hb. simpl.
      replace (Z.of_nat k + 1) with (Z.of_nat (Datatypes.S k)) by lia.
      exact Hit.
    + now replace (k + Datatypes.S n)%nat with (Datatypes.S k + n)%nat by lia.
Qed.

(** A loop whose body throws at step [k + n], after [n] good steps. *)
Lemma iterate_throws {S : Type} (P : nat -> S -> Prop)
    (body : Z -> S -> completion S) (e : JsError) (n m : nat) :
  forall (k : nat) (s : S),
    P k s ->
    (forall i s, (k <= i < k + n)%nat -> P i s ->
       exists s', body (Z.of_nat i) s = Return s' /\ P (Datatypes.S i) s') ->
    (forall s, P (k + n)%nat s -> body (Z.of_nat (k + n)) s = Throw e) ->
    iterate (n + Datatypes.S m) (Z.of_nat k) body s = Throw e.
Proof.
  induction n as [|n IH]; intros k s HP Hstep Hbad.
  - simpl. rewrite Nat.add_0_r in Hbad. now rewrite (Hbad s HP).
  - destruct (Hstep k s ltac:(lia) HP) as [s1 [Hb HP1]].
    simpl. rewrite Hb. simpl.
    replace (Z.of_nat k + 1) with (Z.of_nat (Datatypes.S k)) by lia.
    apply IH; [exact HP1| |].
    + intros i s0 Hi. apply Hstep. lia.
    + intros s0 Hs0.
      replace (Datatypes.S k + n)%nat with (k + Datatypes.S n)%nat in * by lia.
      now apply Hbad.
Qed.

(** ** Buffers *)

Lemma int16_of_uint16_wrap (v : Z) :
  -32768 <= v <= 32767 -> int16_of_uint16 (v mod 2 ^ 16) = v.
Proof.
  intro H. unfold int16_of_uint16. change (2 ^ 16) with 65536.
  destruct (Z.ltb_spec (v mod 65536) 32768);
    Z.div_mod_to_equations; lia.
Qed.

Lemma int16_of_uint16_range (v : Z) :
  0 <= v < 65536 -> -32768 <= int16_of_uint16 v <= 32767.
Proof.
  intro H. unfold int16_of_uint16. destruct (Z.ltb_spec v 32768); lia.
Qed.

Lemma uint16_of_int16 (v : Z) :
  0 <= v < 65536 -> (int16_of_uint16 v) mod 2 ^ 16 = v.
Proof.
  intro H. unfold int16_of_uint16. change (2 ^ 16) with 65536.
  destruct (Z.ltb_spec v 32768); Z.div_mod_to_equations; lia.
Qed.

Lemma le_combine_2_range (x y : byte) : 0 <= le_combine [x; y] < 65536.
Proof.
  pose proof (le_combine_bound [x; y]) as H. simpl List.length in H.
  change (2 ^ (8 * Z.of_nat 2)) with 65536 in H. exact H.
Qed.

Lemma sample_range (b : Buffer) (i : nat) : -32768 <= sample b i <= 32767.
Proof. apply int16_of_uint16_range, le_combine_2_range. Qed.

(** Writing a sample and reading it back. *)
Lemma le_combine_split_int16 (v : Z) :
  -32768 <= v <= 32767 -> int16_of_uint16 (le_combine (le_split 2 v)) = v.
Proof.
  intro H. rewrite le_combine_split.
  change (Z.of_nat 2 * 8) with 16. now apply int16_of_uint16_wrap.
Qed.

(** Writing back the sample that two bytes hold gives the two bytes. *)
Lemma le_split_sample (x y : byte) :
  le_split 2 (int16_of_uint16 (le_combine [x; y])) = [x; y].
Proof.
  rewrite (le_split_mod (int16_of_uint16 _)).
  change (8 * Z.of_nat 2) with 16.
  rewrite uint16_of_int16 by apply le_combine_2_range.
  exact (split_le_combine [x; y]).
Qed.

Lemma readInt16LE_sample (b : Buffer) (offset : Q) (i : nat) :
  (offset == inject_Z (Z.of_nat (2 * i)))%Q ->
  (2 * i + 1 < List.length b)%nat ->
  readInt16LE b offset = Return (sample b i).
Proof.
  intros Hoff Hlen. unfold readInt16LE, sample.
  rewrite (as_index_of_nat _ _ Hoff).
  rewrite (nth_error_nth' b Byte.x00) by lia.
  rewrite (nth_error_nth' b Byte.x00) by lia.
  reflexivity.
Qed.

Lemma readInt16LE_past_end (b : Buffer) (offset : Q) (k : nat) :
  (offset == inject_Z (Z.of_nat k))%Q ->
  (List.length b <= k + 1)%nat ->
  readInt16LE b offset = Throw RangeError.
Proof.
  intros Hoff Hlen. unfold readInt16LE.
  rewrite (as_index_of_nat _ _ Hoff).
  assert (H1 : nth_error b (k + 1) = None) by (apply nth_error_None; lia).
  rewrite H1. now destruct (nth_error b k).
Qed.

(** A write into the zero-filled tail of the output buffer. *)
Lemma writeInt16LE_fill (pre : Buffer) (m : nat) (v : Z) (offset : Q) :
  -32768 <= v <= 32767 ->
  (offset == inject_Z (Z.of_nat (List.length pre)))%Q ->
  writeInt16LE (pre ++ repeat Byte.x00 (2 + m)) v offset
  = Return ((pre ++ le_split 2 v) ++ repeat Byte.x00 m).
Proof.
  intros Hv Hoff. unfold writeInt16LE.
  replace ((v <? -32768) || (32767 <? v)) with false
    by (symmetry; apply orb_false_iff; split; apply Z.ltb_ge; lia).
  rewrite (as_index_of_nat _ _ Hoff).
  replace (List.length pre + 2 <=? _)%nat with true
    by (symmetry; apply Nat.leb_le; rewrite length_app, repeat_length; lia).
  f_equal. rewrite <- app_assoc. f_equal.
  - rewrite firstn_app, Nat.sub_diag, firstn_all. simpl. apply app_nil_r.
  - f_equal. rewrite skipn_app.
    rewrite skipn_all2 by lia.
    replace (List.length pre + 2 - List.length pre)%nat with 2%nat by lia.
    reflexivity.
Qed.

Lemma encode_length (l : list Z) :
  List.length (encode l) = (2 * List.length l)%nat.
Proof.
  unfold encode. induction l as [|x l IH]; [reflexivity|].
  cbn [flat_map]. rewrite length_app, IH, length_le_split. simpl. lia.
Qed.

Lemma encode_app (l1 l2 : list Z) : encode (l1 ++ l2) = encode l1 ++ encode l2.
Proof. apply flat_map_app. Qed.

Lemma sample_cons2 (x y : byte) (b : Buffer) (i : nat) :
  sample (x :: y :: b) (Datatypes.S i) = sample b i.
Proof.
  unfold sample.
  replace (2 * Datatypes.S i)%nat with (Datatypes.S (Datatypes.S (2 * i))) by lia.
  replace (Datatypes.S (Datatypes.S (2 * i)) + 1)%nat
    with (Datatypes.S (Datatypes.S (2 * i + 1))) by lia.
  reflexivity.
Qed.

(** Sample [i] of an encoded list is its element [i]. *)
Lemma sample_encode (l : list Z) :
  Forall (fun v => -32768 <= v <= 32767) l ->
  forall i, (i < List.length l)%nat -> sample (encode l) i = nth i l 0.
Proof.
  induction 1 as [|v l Hv Hl IH]; intros i Hi; [simpl in Hi; lia|].
  unfold encode. cbn [flat_map]. fold (encode l).
  destruct (le_split 2 v) as [|x [|y [|z r]]] eqn:E;
    try (apply (f_equal (@List.length byte)) in E;
         rewrite length_le_split in E; simpl in E; lia).
  destruct i as [|i].
  - unfold sample. simpl nth. rewrite <- E.
    now apply le_combine_split_int16.
  - simpl app. rewrite sample_cons2. simpl nth. apply IH. simpl in Hi. lia.
Qed.

Lemma sample_at_encode (l : list Z) (i : nat) :
  Forall (fun v => -32768 <= v <= 32767) l ->
  (i < List.length l)%nat ->
  sample_at (encode l) (Z.of_nat i) = Return (nth i l 0).
Proof.
  intros Hl Hi. unfold sample_at.
  rewrite (readInt16LE_sample _ _ i).
  - now rewrite sample_encode.
  - apply inject_Z_eq. lia.
  - rewrite encode_length. lia.
Qed.

Lemma Buffer_alloc_nat (size : Q) (k : nat) :
  (size == inject_Z (Z.of_nat k))%Q ->
  Buffer_alloc size = Return (repeat Byte.x00 k).
Proof.
  intro H. unfold Buffer_alloc.
  replace (Qltb size 0) with false.
  - rewrite H, Qfloor_Z, Nat2Z.id. reflexivity.
  - symmetry. apply Qltb_ge. rewrite H.
    change 0%Q with (inject_Z 0). rewrite <- Zle_Qle. lia.
Qed.

(** The two writes of an inner loop land in the next four zero bytes. *)
Lemma for_lt_two_writes (v : Z -> Z) (off : Z -> Q) (pre : Buffer) (m : nat) :
  -32768 <= v 0 <= 32767 ->
  -32768 <= v 1 <= 32767 ->
  (off 0%Z == inject_Z (Z.of_nat (List.length pre)))%Q ->
  (off 1%Z == inject_Z (Z.of_nat (List.length pre + 2)))%Q ->
  for_lt (inject_Z 2) (fun j out => writeInt16LE out (v j) (off j))
    (pre ++ repeat Byte.x00 (4 + m))
  = Return ((pre ++ encode [v 0; v 1]) ++ repeat Byte.x00 m).
Proof.
  intros Hv0 Hv1 Ho0 Ho1. unfold for_lt.
  change (trip_count (inject_Z 2)) with 2%nat. cbn [iterate].
  change (4 + m)%nat with (2 + (2 + m))%nat.
  rewrite (writeInt16LE_fill pre (2 + m) (v 0) (off 0) Hv0 Ho0).
  cbn [bind]. change (0 + 1) with 1.
  rewrite (writeInt16LE_fill (pre ++ le_split 2 (v 0)) m (v 1) (off 1) Hv1).
  - cbn [bind]. unfold encode. cbn [flat_map]. rewrite app_nil_r.
    now rewrite !app_assoc.
  - rewrite Ho1. apply inject_Z_eq. rewrite length_app, length_le_split. lia.
Qed.

Lemma interpolated_range (cur next j : Z) :
  -32768 <= interpolated cur next j <= 32767.
Proof. unfold interpolated, Math_max, Math_min. lia. Qed.

Lemma upsampled_prefix_S (b : Buffer) (i : nat) :
  flat_map
    (fun i => [interpolated (sample b i) (sample b (i + 1)) 0;
               interpolated (sample b i) (sample b (i + 1)) 1])
    (seq 0 (Datatypes.S i))
  = flat_map
      (fun i => [interpolated (sample b i) (sample b (i + 1)) 0;
                 interpolated (sample b i) (sample b (i + 1)) 1])
      (seq 0 i)
    ++ [interpolated (sample b i) (sample b (i + 1)) 0;
        interpolated (sample b i) (sample b (i + 1)) 1].
Proof. rewrite seq_S, flat_map_app. cbn [flat_map Nat.add]. now rewrite app_nil_r. Qed.

Lemma upsampled_prefix_length (b : Buffer) (k : nat) :
  List.length
    (flat_map
       (fun i => [interpolated (sample b i) (sample b (i + 1)) 0;
                  interpolated (sample b i) (sample b (i + 1)) 1])
       (seq 0 k)) = (2 * k)%nat.
Proof.
  induction k as [|k IH]; [reflexivity|].
  rewrite upsampled_prefix_S, length_app, IH. simpl. lia.
Qed.

(** The sample count of an even-length buffer is a whole number. *)
Lemma inputSampleCount_even (b : Buffer) (n : nat) :
  List.length b = (2 * n)%nat ->
  (inject_Z (Buffer_length b) / inject_Z 2 == inject_Z (Z.of_nat n))%Q.
Proof.
  intro H. unfold Buffer_length. rewrite H.
  replace (Z.of_nat (2 * n)) with (Z.of_nat n * 2) by lia.
  rewrite inject_Z_mult. field.
Qed.

(** On an even-length buffer of n >= 2 samples the loops of
    [upsample8kTo16k] run to their end and fill the output buffer with
    [upsampled]. *)
Lemma upsample8kTo16k_even (b : Buffer) (n : nat) :
  List.length b = (2 * n)%nat -> (2 <= n)%nat ->
  upsample8kTo16k (Some b) = Return (encode (upsampled b n)).
Proof.
  intros Hlen Hn.
  pose proof (inputSampleCount_even b n Hlen) as Hisc.
  unfold upsample8kTo16k.
  replace (Buffer_length b =? 0) with false
    by (symmetry; apply Z.eqb_neq; unfold Buffer_length; lia).
  cbv zeta.
  set (isc := (inject_Z (Buffer_length b) / inject_Z 2)%Q) in *.
  replace (Qltb isc 2) with false.
  2:{ symmetry. apply Qltb_ge. rewrite Hisc.
      change 2%Q with (inject_Z 2). rewrite <- Zle_Qle. lia. }
  rewrite (Buffer_alloc_nat _ (4 * n)).
  2:{ rewrite Hisc, <- !inject_Z_mult. apply inject_Z_eq. lia. }
  cbn [bind].
  unfold for_lt at 1.
  rewrite (trip_count_nat _ (n - 1)).
  2:{ rewrite Hisc. change 1%Q with (inject_Z 1).
      unfold Qminus. rewrite <- inject_Z_opp, <- inject_Z_plus.
      apply inject_Z_eq. lia. }
  set (prefix := fun k =>
    flat_map
      (fun i => [interpolated (sample b i) (sample b (i + 1)) 0;
                 interpolated (sample b i) (sample b (i + 1)) 1])
      (seq 0 k)).
  match goal with
  | |- bind (iterate _ _ ?body _) _ = _ =>
      destruct (iterate_invariant (S := Buffer)
                  (fun k out =>
                     out = encode (prefix k) ++ repeat Byte.x00 (4 * n - 4 * k))
                  body (n - 1) 0 (repeat Byte.x00 (4 * n)))
        as [out [Hrun Hout]]
  end.
  - simpl. f_equal. lia.
  - intros i s Hi ->.
    rewrite (readInt16LE_sample b _ i) by (try apply inject_Z_eq; lia).
    cbn [bind].
    rewrite (readInt16LE_sample b _ (i + 1)) by (try apply inject_Z_eq; lia).
    cbn [bind].
    replace (4 * n - 4 * i)%nat with (4 + (4 * n - 4 * Datatypes.S i))%nat by lia.
    rewrite (for_lt_two_writes
               (fun j => interpolated (sample b i) (sample b (i + 1)) j)
               (fun j => inject_Z ((Z.of_nat i * 2 + j) * 2))).
    + eexists. split; [reflexivity|].
      unfold prefix. rewrite upsampled_prefix_S, encode_app. reflexivity.
    + apply interpolated_range.
    + apply interpolated_range.
    + apply inject_Z_eq. rewrite encode_length.
      unfold prefix. rewrite upsampled_prefix_length. lia.
    + apply inject_Z_eq. rewrite encode_length.
      unfold prefix. rewrite upsampled_prefix_length. lia.
  - change (Z.of_nat 0) with 0 in Hrun. rewrite Hrun. cbn [bind].
    rewrite (readInt16LE_sample b _ (n - 1)).
    2:{ rewrite Hisc. change 1%Q with (inject_Z 1).
        unfold Qminus. rewrite <- inject_Z_opp, <- inject_Z_plus, <- inject_Z_mult.
        apply inject_Z_eq. lia. }
    2:{ lia. }
    cbn [bind]. subst out.
    replace (4 * n - 4 * (0 + (n - 1)))%nat with (4 + 0)%nat by lia.
    rewrite (for_lt_two_writes
               (fun _ => sample b (n - 1))
               (fun j => (((isc - 1) * inject_Z 2 + inject_Z j) * inject_Z 2)%Q)).
    + cbn [bind repeat]. rewrite app_nil_r.
      unfold upsampled. rewrite encode_app. reflexivity.
    + apply sample_range.
    + apply sample_range.
    + rewrite Hisc. change 1%Q with (inject_Z 1).
      unfold Qminus.
      rewrite <- inject_Z_opp, <- inject_Z_plus, <- inject_Z_mult,
        <- inject_Z_plus, <- inject_Z_mult.
      apply inject_Z_eq. rewrite encode_length.
      unfold prefix. rewrite upsampled_prefix_length. lia.
    + rewrite Hisc. change 1%Q with (inject_Z 1).
      unfold Qminus.
      rewrite <- inject_Z_opp, <- inject_Z_plus, <- inject_Z_mult,
        <- inject_Z_plus, <- inject_Z_mult.
      apply inject_Z_eq. rewrite encode_length.
      unfold prefix. rewrite upsampled_prefix_length. lia.
Qed.

(** ** Rounding *)

(** At j = 0 the interpolation is the current sample. *)
Lemma Math_round_j0 (cur next : Z) :
  Math_round (inject_Z cur + inject_Z (next - cur) * (inject_Z 0 / 2))%Q = cur.
Proof. q_to_div. Qed.

(** At j = 1 it is the mean of the two samples, a half rounded up. *)
Lemma Math_round_j1 (cur next : Z) :
  Math_round (inject_Z cur + inject_Z (next - cur) * (inject_Z 1 / 2))%Q
  = (cur + next + 1) / 2.
Proof. q_to_div. Qed.

Lemma interpolated_0 (cur next : Z) :
  -32768 <= cur <= 32767 -> interpolated cur next 0 = cur.
Proof.
  intro H. unfold interpolated. rewrite Math_round_j0.
  unfold Math_max, Math_min. lia.
Qed.

Lemma interpolated_1 (cur next : Z) :
  -32768 <= cur <= 32767 -> -32768 <= next <= 32767 ->
  interpolated cur next 1 = (cur + next + 1) / 2.
Proof.
  intros Hc Hn. unfold interpolated. rewrite Math_round_j1.
  unfold Math_max, Math_min. Z.div_mod_to_equations. lia.
Qed.

Lemma outputSampleCount_div (L : Z) :
  Math_floor ((inject_Z L / inject_Z 2) / inject_Z 3)%Q = L / 6.
Proof. q_to_div. Qed.

Lemma trip_count_upsample (L : Z) :
  trip_count (inject_Z L / inject_Z 2 - 1)%Q = Z.to_nat ((L - 1) / 2).
Proof. unfold trip_count. f_equal. q_to_div. Qed.

(** ** [downsample24kTo8k] *)

Lemma writeInt16LE_fill_1 (pre : Buffer) (m : nat) (v : Z) (offset : Q) :
  -32768 <= v <= 32767 ->
  (offset == inject_Z (Z.of_nat (List.length pre)))%Q ->
  writeInt16LE (pre ++ repeat Byte.x00 (2 + m)) v offset
  = Return ((pre ++ encode [v]) ++ repeat Byte.x00 m).
Proof.
  intros Hv Hoff. rewrite (writeInt16LE_fill pre m v offset Hv Hoff).
  unfold encode. cbn [flat_map]. now rewrite app_nil_r.
Qed.

Lemma decimated_S (b : Buffer) (m : nat) :
  decimated b (Datatypes.S m) = decimated b m ++ [sample b (3 * m)].
Proof. unfold decimated. now rewrite seq_S, map_app. Qed.

Lemma decimated_length (b : Buffer) (m : nat) :
  List.length (decimated b m) = m.
Proof. unfold decimated. now rewrite length_map, length_seq. Qed.

(** On a buffer of at least 6 bytes, of even or odd length, the loop of
    [downsample24kTo8k] runs to its end and keeps every third sample. *)
Lemma downsample24kTo8k_long (b : Buffer) :
  (6 <= List.length b)%nat ->
  downsample24kTo8k (Some b)
  = Return (encode (decimated b (List.length b / 6))).
Proof.
  intro Hlen. unfold downsample24kTo8k.
  replace (Buffer_length b =? 0) with false
    by (symmetry; apply Z.eqb_neq; unfold Buffer_length; lia).
  cbv zeta.
  replace (Qltb _ (inject_Z 3)) with false.
  2:{ symmetry. apply Qltb_ge. unfold Buffer_length.
      apply Qle_shift_div_l; [reflexivity|].
      rewrite <- inject_Z_mult, <- Zle_Qle. lia. }
  rewrite outputSampleCount_div.
  set (m := (List.length b / 6)%nat).
  assert (Hm : Buffer_length b / 6 = Z.of_nat m).
  { unfold m, Buffer_length. now rewrite Nat2Z.inj_div. }
  assert (Hm6 : (6 * m <= List.length b)%nat).
  { unfold m. apply Nat.Div0.mul_div_le. }
  rewrite Hm.
  rewrite (Buffer_alloc_nat _ (2 * m)) by (apply inject_Z_eq; lia).
  cbn [bind]. unfold for_lt.
  rewrite (trip_count_nat _ m) by reflexivity.
  match goal with
  | |- bind (iterate _ _ ?body _) _ = _ =>
      destruct (iterate_invariant (S := Buffer)
                  (fun k out =>
                     out = encode (decimated b k)
                           ++ repeat Byte.x00 (2 * m - 2 * k))
                  body m 0 (repeat Byte.x00 (2 * m)))
        as [out [Hrun Hout]]
  end.
  - simpl. f_equal. lia.
  - intros i s Hi ->.
    rewrite (readInt16LE_sample b _ (3 * i)) by (try apply inject_Z_eq; lia).
    cbn [bind].
    replace (2 * m - 2 * i)%nat with (2 + (2 * m - 2 * Datatypes.S i))%nat by lia.
    rewrite writeInt16LE_fill_1.
    + eexists. split; [reflexivity|].
      now rewrite decimated_S, encode_app.
    + apply sample_range.
    + apply inject_Z_eq. rewrite encode_length, decimated_length. lia.
  - change (Z.of_nat 0) with 0 in Hrun. rewrite Hrun. cbn [bind].
    subst out. replace (2 * m - 2 * (0 + m))%nat with 0%nat by lia.
    cbn [repeat]. now rewrite app_nil_r.
Qed.

Lemma downsample24kTo8k_short (b : Buffer) :
  (List.length b < 6)%nat -> downsample24kTo8k (Some b) = Return b.
Proof.
  intro Hlen. unfold downsample24kTo8k.
  destruct (Z.eqb_spec (Buffer_length b) 0) as [H0|H0].
  - destruct b; [reflexivity|]. unfold Buffer_length in H0. simpl in H0. lia.
  - cbv zeta. replace (Qltb _ (inject_Z 3)) with true; [reflexivity|].
    symmetry. apply Qltb_lt. unfold Buffer_length.
    apply Qlt_shift_div_r; [reflexivity|].
    rewrite <- inject_Z_mult, <- Zlt_Qlt. lia.
Qed.

Lemma upsample8kTo16k_short (b : Buffer) :
  (List.length b < 4)%nat -> upsample8kTo16k (Some b) = Return b.
Proof.
  intro Hlen. unfold upsample8kTo16k.
  destruct (Z.eqb_spec (Buffer_length b) 0) as [H0|H0].
  - destruct b; [reflexivity|]. unfold Buffer_length in H0. simpl in H0. lia.
  - cbv zeta. replace (Qltb _ 2) with true; [reflexivity|].
    symmetry. apply Qltb_lt. unfold Buffer_length.
    apply Qlt_shift_div_r; [reflexivity|].
    change 2%Q with (inject_Z 2).
    rewrite <- inject_Z_mult, <- Zlt_Qlt. lia.
Qed.

(** ** Reading samples back *)

Lemma sample_at_sample (b : Buffer) (i : nat) :
  (2 * i + 1 < List.length b)%nat ->
  sample_at b (Z.of_nat i) = Return (sample b i).
Proof.
  intro H. unfold sample_at. apply readInt16LE_sample; [|exact H].
  apply inject_Z_eq. lia.
Qed.

(** A buffer is the encoding of its own samples. *)
Lemma encode_samples (n : nat) :
  forall b : Buffer, List.length b = (2 * n)%nat ->
  encode (map (sample b) (seq 0 n)) = b.
Proof.
  induction n as [|n IH]; intros b Hlen.
  - destruct b; [reflexivity|simpl in Hlen; lia].
  - destruct b as [|x [|y b]]; try (simpl in Hlen; lia).
    cbn [seq map]. rewrite <- seq_shift, map_map.
    unfold encode. cbn [flat_map]. fold (encode (map (fun i => sample (x :: y :: b) (Datatypes.S i)) (seq 0 n))).
    rewrite (map_ext _ (sample b)) by (intro i; apply sample_cons2).
    rewrite IH by (simpl in Hlen; lia).
    unfold sample at 1. cbn [Nat.mul Nat.add nth].
    now rewrite le_split_sample.
Qed.

Lemma nth_after (A : Type) (l1 l2 : list A) (x d : A) (k : nat) :
  List.length l1 = k -> nth k (l1 ++ x :: l2) d = x.
Proof. intros <-. now rewrite nth_middle. Qed.

Lemma nth_after_1 (A : Type) (l1 l2 : list A) (x y d : A) (k : nat) :
  List.length l1 = k -> nth (k + 1) (l1 ++ x :: y :: l2) d = y.
Proof.
  intros <-. replace (l1 ++ x :: y :: l2) with ((l1 ++ [x]) ++ y :: l2)
    by now rewrite <- app_assoc.
  apply nth_after. rewrite length_app. simpl. lia.
Qed.

Lemma upsampled_length (b : Buffer) (n : nat) :
  (1 <= n)%nat -> List.length (upsampled b n) = (2 * n)%nat.
Proof.
  intro H. unfold upsampled. rewrite length_app, upsampled_prefix_length.
  simpl. lia.
Qed.

Lemma upsampled_range (b : Buffer) (n : nat) :
  Forall (fun v => -32768 <= v <= 32767) (upsampled b n).
Proof.
  unfold upsampled. apply Forall_app. split.
  - apply Forall_flat_map. apply Forall_forall. intros i _.
    repeat constructor; apply interpolated_range.
  - repeat constructor; apply sample_range.
Qed.

(** Elements [2 i] and [2 i + 1] of [upsampled], for a pair of
    neighbours. *)
Lemma upsampled_pair (b : Buffer) (n i : nat) :
  (i < n - 1)%nat ->
  nth (2 * i) (upsampled b n) 0
  = interpolated (sample b i) (sample b (i + 1)) 0
  /\ nth (2 * i + 1) (upsampled b n) 0
     = interpolated (sample b i) (sample b (i + 1)) 1.
Proof.
  intro Hi. unfold upsampled.
  replace (n - 1)%nat with (Datatypes.S i + (n - 1 - Datatypes.S i))%nat by lia.
  rewrite seq_app, flat_map_app, upsampled_prefix_S, <- !app_assoc.
  cbn [app]. split.
  - apply nth_after, upsampled_prefix_length.
  - apply nth_after_1, upsampled_prefix_length.
Qed.

(** The last two elements of [upsampled] repeat the last sample. *)
Lemma upsampled_last (b : Buffer) (n : nat) :
  (1 <= n)%nat ->
  nth (2 * (n - 1)) (upsampled b n) 0 = sample b (n - 1)
  /\ nth (2 * (n - 1) + 1) (upsampled b n) 0 = sample b (n - 1).
Proof.
  intro Hn. unfold upsampled. split.
  - apply nth_after, upsampled_prefix_length.
  - apply nth_after_1, upsampled_prefix_length.
Qed.

Lemma decimated_range (b : Buffer) (m : nat) :
  Forall (fun v => -32768 <= v <= 32767) (decimated b m).
Proof.
  unfold decimated. apply Forall_map, Forall_forall. intros i _.
  apply sample_range.
Qed.

Lemma decimated_nth (b : Buffer) (m i : nat) :
  (i < m)%nat -> nth i (decimated b m) 0 = sample b (3 * i).
Proof.
  intro Hi. unfold decimated.
  rewrite (nth_indep _ 0 ((fun i => sample b (3 * i)) 0%nat))
    by (rewrite length_map, length_seq; lia).
  rewrite (map_nth (fun i => sample b (3 * i))), seq_nth by lia.
  reflexivity.
Qed.

(** ** The resampler, as the design document states it *)

Lemma even_length (b : Buffer) (n : Z) :
  Buffer_length b = 2 * n -> List.length b = (2 * Z.to_nat n)%nat.
Proof. unfold Buffer_length. lia. Qed.

(** C1: upsampling a null or an empty buffer gives an empty buffer; a
    buffer of fewer than 2 samples (fewer than 4 bytes) comes back
    unchanged; an even-length buffer of at least 2 samples gives an output
    of exactly twice its byte length. *)
Theorem upsample8kTo16k_length :
  upsample8kTo16k None = Return []
  /\ (forall b, Buffer_length b = 0 -> upsample8kTo16k (Some b) = Return [])
  /\ (forall b, Buffer_length b < 4 -> upsample8kTo16k (Some b) = Return b)
  /\ (forall b, Z.even (Buffer_length b) = true -> 4 <= Buffer_length b ->
        exists out, upsample8kTo16k (Some b) = Return out
                    /\ Buffer_length out = 2 * Buffer_length b).
Proof.
  split; [reflexivity|]. split; [|split].
  - intros b H. unfold upsample8kTo16k. now rewrite H.
  - intros b H. apply upsample8kTo16k_short. unfold Buffer_length in H. lia.
  - intros b Hev Hlen. apply Z.even_spec in Hev. destruct Hev as [n Hn].
    pose proof (even_length b n Hn) as Hl.
    rewrite (upsample8kTo16k_even b (Z.to_nat n) Hl) by lia.
    eexists. split; [reflexivity|].
    unfold Buffer_length in *. rewrite encode_length, upsampled_length; lia.
Qed.

Lemma upsample8kTo16k_length_witness :
  upsample8kTo16k (Some (bytes_of [7])) = Return (bytes_of [7])
  /\ exists out,
       upsample8kTo16k (Some (bytes_of [1; 0; 3; 0; 255; 255])) = Return out
       /\ Buffer_length out = 2 * 6.
Proof.
  destruct upsample8kTo16k_length as (_ & _ & Hshort & Hlong). split.
  - apply (Hshort (bytes_of [7])). reflexivity.
  - apply (Hlong (bytes_of [1; 0; 3; 0; 255; 255])); [reflexivity|].
    vm_compute. discriminate.
Defined.

(** C2: on an even-length buffer of n >= 2 samples, each pair of
    neighbours (s[i], s[i+1]), i < n - 1, gives the output samples
    round(s[i] + (s[i+1] - s[i]) * j / 2), j = 0, 1, clamped to
    [-32768, 32767], at the positions 2i and 2i + 1; the last sample is
    written unchanged at 2(n-1) and 2(n-1) + 1.  Two equal samples [x, x]
    give four samples x. *)
Theorem upsample8kTo16k_interpolates :
  (forall (b : Buffer) (n : Z),
     Buffer_length b = 2 * n -> 2 <= n ->
     exists out,
       upsample8kTo16k (Some b) = Return out
       /\ (forall i j, 0 <= i < n - 1 -> 0 <= j <= 1 ->
             exists cur next,
               sample_at b i = Return cur
               /\ sample_at b (i + 1) = Return next
               /\ sample_at out (2 * i + j)
                  = Return
                      (Math_max (-32768)
                         (Math_min 32767
                            (Math_round
                               (inject_Z cur
                                + inject_Z (next - cur) * (inject_Z j / 2))%Q))))
       /\ (forall j, 0 <= j <= 1 ->
             exists last,
               sample_at b (n - 1) = Return last
               /\ sample_at out (2 * (n - 1) + j) = Return last))
  /\ (forall x, -32768 <= x <= 32767 ->
        upsample8kTo16k (Some (encode [x; x])) = Return (encode [x; x; x; x])).
Proof.
  split.
  - intros b n Hb Hn.
    pose proof (even_length b n Hb) as Hl.
    set (m := Z.to_nat n) in *.
    exists (encode (upsampled b m)).
    split; [apply upsample8kTo16k_even; [exact Hl|lia]|].
    assert (Hread : forall k, (k < 2 * m)%nat ->
              sample_at (encode (upsampled b m)) (Z.of_nat k)
              = Return (nth k (upsampled b m) 0)).
    { intros k Hk. apply sample_at_encode; [apply upsampled_range|].
      rewrite upsampled_length; lia. }
    split.
    + intros i j Hi Hj.
      exists (sample b (Z.to_nat i)), (sample b (Z.to_nat i + 1)).
      destruct (upsampled_pair b m (Z.to_nat i) ltac:(lia)) as [H0 H1].
      split; [|split].
      * rewrite <- (Z2Nat.id i) at 1 by lia. apply sample_at_sample. lia.
      * replace (i + 1) with (Z.of_nat (Z.to_nat i + 1)) by lia.
        apply sample_at_sample. lia.
      * assert (Hj' : j = 0 \/ j = 1) by lia. destruct Hj' as [-> | ->].
        -- replace (2 * i + 0) with (Z.of_nat (2 * Z.to_nat i)) by lia.
           rewrite Hread by lia. now rewrite H0.
        -- replace (2 * i + 1) with (Z.of_nat (2 * Z.to_nat i + 1)) by lia.
           rewrite Hread by lia. now rewrite H1.
    + intros j Hj. exists (sample b (m - 1)).
      destruct (upsampled_last b m ltac:(lia)) as [H0 H1].
      split.
      * replace (n - 1) with (Z.of_nat (m - 1)) by lia.
        apply sample_at_sample. lia.
      * assert (Hj' : j = 0 \/ j = 1) by lia. destruct Hj' as [-> | ->].
        -- replace (2 * (n - 1) + 0) with (Z.of_nat (2 * (m - 1))) by lia.
           rewrite Hread by lia. now rewrite H0.
        -- replace (2 * (n - 1) + 1) with (Z.of_nat (2 * (m - 1) + 1)) by lia.
           rewrite Hread by lia. now rewrite H1.
  - intros x Hx.
    rewrite (upsample8kTo16k_even (encode [x; x]) 2)
      by (rewrite ?encode_length; simpl; lia).
    f_equal. f_equal.
    assert (Hs : forall i, (i < 2)%nat -> sample (encode [x; x]) i = x).
    { intros i Hi.
      rewrite sample_encode; [|repeat constructor; lia|simpl; lia].
      destruct i as [|[|i]]; [reflexivity|reflexivity|lia]. }
    unfold upsampled. cbn [Nat.sub seq flat_map app Nat.add].
    rewrite !Hs by lia.
    rewrite interpolated_0, interpolated_1 by lia.
    replace ((x + x + 1) / 2) with x by (Z.div_mod_to_equations; lia).
    reflexivity.
Qed.

Lemma upsample8kTo16k_interpolates_witness :
  (exists out,
     upsample8kTo16k (Some (bytes_of [253; 255; 0; 0; 5; 0])) = Return out
     /\ sample_at out (2 * 0 + 1) = Return (-1)
     /\ sample_at out (2 * 1 + 1) = Return 3
     /\ sample_at out (2 * 2 + 1) = Return 5)
  /\ upsample8kTo16k (Some (encode [-7; -7])) = Return (encode [-7; -7; -7; -7]).
Proof.
  destruct upsample8kTo16k_interpolates as [Hpairs Hflat]. split.
  - destruct (Hpairs (bytes_of [253; 255; 0; 0; 5; 0]) 3 eq_refl ltac:(lia))
      as (out & Hout & Hp & Hlast).
    exists out. split; [exact Hout|].
    destruct (Hp 0 1 ltac:(lia) ltac:(lia)) as (c0 & n0 & Hc0 & Hn0 & H0).
    destruct (Hp 1 1 ltac:(lia) ltac:(lia)) as (c1 & n1 & Hc1 & Hn1 & H1).
    destruct (Hlast 1 ltac:(lia)) as (l & Hl & H2).
    vm_compute in Hc0, Hn0, Hc1, Hn1, Hl.
    injection Hc0 as <-. injection Hn0 as <-.
    injection Hc1 as <-. injection Hn1 as <-. injection Hl as <-.
    repeat split; [exact H0|exact H1|exact H2].
  - apply (Hflat (-7)). lia.
Defined.

(** C3: downsampling a null or an empty buffer gives an empty buffer; a
    buffer of fewer than 3 samples comes back unchanged; an even-length
    buffer of n >= 3 samples gives exactly floor(n / 3) samples, output
    sample i being input sample 3 i. *)
Theorem downsample24kTo8k_decimates :
  downsample24kTo8k None = Return []
  /\ (forall b, Buffer_length b = 0 -> downsample24kTo8k (Some b) = Return [])
  /\ (forall b, Buffer_length b < 6 -> downsample24kTo8k (Some b) = Return b)
  /\ (forall b n, Buffer_length b = 2 * n -> 3 <= n ->
        exists out,
          downsample24kTo8k (Some b) = Return out
          /\ Buffer_length out = 2 * (n / 3)
          /\ forall i, 0 <= i < n / 3 ->
               exists s, sample_at b (i * 3) = Return s
                         /\ sample_at out i = Return s).
Proof.
  split; [reflexivity|]. split; [|split].
  - intros b H. unfold downsample24kTo8k. now rewrite H.
  - intros b H. apply downsample24kTo8k_short. unfold Buffer_length in H. lia.
  - intros b n Hb Hn.
    pose proof (even_length b n Hb) as Hl.
    rewrite downsample24kTo8k_long by lia.
    set (m := (List.length b / 6)%nat).
    assert (Hm : Z.of_nat m = n / 3).
    { unfold m. rewrite Nat2Z.inj_div. fold (Buffer_length b). rewrite Hb.
      change (Z.of_nat 6) with (2 * 3).
      rewrite Z.div_mul_cancel_l by lia. reflexivity. }
    assert (Hm3 : 3 * (n / 3) <= n) by (apply Z.mul_div_le; lia).
    eexists. split; [reflexivity|]. split.
    + unfold Buffer_length. rewrite encode_length, decimated_length. lia.
    + intros i Hi. exists (sample b (3 * Z.to_nat i)). split.
      * replace (i * 3) with (Z.of_nat (3 * Z.to_nat i)) by lia.
        apply sample_at_sample. lia.
      * rewrite <- (Z2Nat.id i) at 1 by lia.
        rewrite sample_at_encode;
          [|apply decimated_range|rewrite decimated_length; lia].
        rewrite decimated_nth by lia. reflexivity.
Qed.

Lemma downsample24kTo8k_decimates_witness :
  downsample24kTo8k (Some (bytes_of [1; 0; 2; 0])) = Return (bytes_of [1; 0; 2; 0])
  /\ exists out,
       downsample24kTo8k
         (Some (encode [10; 11; 12; 20; 21; 22; 30; 31])) = Return out
       /\ Buffer_length out = 2 * (8 / 3)
       /\ sample_at out 1 = Return 20.
Proof.
  destruct downsample24kTo8k_decimates as (_ & _ & Hshort & Hlong). split.
  - apply (Hshort (bytes_of [1; 0; 2; 0])). reflexivity.
  - destruct (Hlong (encode [10; 11; 12; 20; 21; 22; 30; 31]) 8
                eq_refl ltac:(lia)) as (out & Hout & Hlen & Hs).
    exists out. split; [exact Hout|]. split; [exact Hlen|].
    assert (H1 : 0 <= 1 < 8 / 3) by (change (8 / 3) with 2; lia).
    destruct (Hs 1 H1) as (s & Hin & Ho).
    vm_compute in Hin. injection Hin as <-. exact Ho.
Defined.

(** ** Upsampling keeps the original samples *)

Lemma every_second_sample_cons (x y : Z) (l : list Z) :
  every_second_sample (encode (x :: y :: l))
  = encode [x] ++ every_second_sample (encode l).
Proof. reflexivity. Qed.

Lemma every_second_sample_encode (f g : nat -> Z) (l : list nat) (a a' : Z) :
  every_second_sample
    (encode (flat_map (fun i => [f i; g i]) l ++ [a; a']))
  = encode (map f l ++ [a]).
Proof.
  induction l as [|i l IH].
  - reflexivity.
  - cbn [flat_map map app].
    rewrite every_second_sample_cons, IH.
    now rewrite <- encode_app.
Qed.

(** C10: on an even-length buffer of n >= 2 samples, output sample 2 i of
    the upsampler is input sample i for every i < n, and every second
    sample of the output, from sample 0 on, is the input buffer. *)
Theorem upsample8kTo16k_keeps_samples (b : Buffer) (n : Z) :
  Buffer_length b = 2 * n -> 2 <= n ->
  exists out,
    upsample8kTo16k (Some b) = Return out
    /\ (forall i, 0 <= i < n ->
          exists s, sample_at b i = Return s
                    /\ sample_at out (2 * i) = Return s)
    /\ every_second_sample out = b.
Proof.
  intros Hb Hn.
  pose proof (even_length b n Hb) as Hl.
  set (m := Z.to_nat n) in *.
  exists (encode (upsampled b m)).
  split; [apply upsample8kTo16k_even; [exact Hl|lia]|].
  split.
  - intros i Hi. exists (sample b (Z.to_nat i)). split.
    + rewrite <- (Z2Nat.id i) at 1 by lia. apply sample_at_sample. lia.
    + replace (2 * i) with (Z.of_nat (2 * Z.to_nat i)) by lia.
      rewrite sample_at_encode;
        [|apply upsampled_range|rewrite upsampled_length; lia].
      f_equal.
      destruct (Z_lt_le_dec i (n - 1)) as [Hlt|Hge].
      * destruct (upsampled_pair b m (Z.to_nat i) ltac:(lia)) as [H0 _].
        rewrite H0. apply interpolated_0, sample_range.
      * destruct (upsampled_last b m ltac:(lia)) as [H0 _].
        replace (Z.to_nat i) with (m - 1)%nat by lia. exact H0.
  - unfold upsampled. rewrite every_second_sample_encode.
    rewrite (map_ext _ (sample b))
      by (intro i; apply interpolated_0, sample_range).
    replace (map (sample b) (seq 0 (m - 1)) ++ [sample b (m - 1)])
      with (map (sample b) (seq 0 m)).
    + now apply encode_samples.
    + replace m with (Datatypes.S (m - 1)) at 1 by lia.
      now rewrite seq_S, map_app.
Qed.

Lemma upsample8kTo16k_keeps_samples_witness :
  exists out,
    upsample8kTo16k (Some (bytes_of [253; 255; 0; 128; 5; 0])) = Return out
    /\ (forall i, 0 <= i < 3 ->
          exists s, sample_at (bytes_of [253; 255; 0; 128; 5; 0]) i = Return s
                    /\ sample_at out (2 * i) = Return s)
    /\ every_second_sample out = bytes_of [253; 255; 0; 128; 5; 0].
Proof.
  apply (upsample8kTo16k_keeps_samples (bytes_of [253; 255; 0; 128; 5; 0]) 3).
  - reflexivity.
  - lia.
Defined.

(** ** Which buffers the resampler accepts *)

(** [downsample24kTo8k] returns on every argument. *)
Lemma downsample24kTo8k_returns (audioBuffer : option Buffer) :
  returns (downsample24kTo8k audioBuffer).
Proof.
  destruct audioBuffer as [b|]; [|eexists; reflexivity].
  destruct (Nat.lt_ge_cases (List.length b) 6) as [H|H].
  - eexists. now apply downsample24kTo8k_short.
  - eexists. now apply downsample24kTo8k_long.
Qed.

(** On an odd-length buffer of 5 bytes or more the sample count is not a
    whole number, the first loop of [upsample8kTo16k] runs once more than
    there are pairs, and its last read of [nextSample] starts at the
    final byte. *)
Lemma upsample8kTo16k_odd (b : Buffer) (n : nat) :
  List.length b = (2 * n + 1)%nat -> (2 <= n)%nat ->
  upsample8kTo16k (Some b) = Throw RangeError.
Proof.
  intros Hlen Hn.
  unfold upsample8kTo16k.
  replace (Buffer_length b =? 0) with false
    by (symmetry; apply Z.eqb_neq; unfold Buffer_length; lia).
  cbv zeta.
  assert (HL : Buffer_length b = 2 * Z.of_nat n + 1)
    by (unfold Buffer_length; lia).
  replace (Qltb _ 2) with false.
  2:{ symmetry. apply Qltb_ge. apply Qle_shift_div_l; [reflexivity|].
      change 2%Q with (inject_Z 2).
      rewrite <- inject_Z_mult, <- Zle_Qle. lia. }
  rewrite (Buffer_alloc_nat _ (4 * n + 2)).
  2:{ rewrite HL.
      replace (Z.of_nat (4 * n + 2)) with ((2 * Z.of_nat n + 1) * 2) by lia.
      rewrite (inject_Z_mult _ 2). field. }
  cbn [bind].
  unfold for_lt at 1.
  rewrite trip_count_upsample, HL.
  replace (Z.to_nat ((2 * Z.of_nat n + 1 - 1) / 2)) with (n - 1 + 1)%nat.
  2:{ replace (2 * Z.of_nat n + 1 - 1) with (Z.of_nat n * 2) by lia.
      rewrite Z.div_mul by lia. lia. }
  set (prefix := fun k =>
    flat_map
      (fun i => [interpolated (sample b i) (sample b (i + 1)) 0;
                 interpolated (sample b i) (sample b (i + 1)) 1])
      (seq 0 k)).
  match goal with
  | |- bind (iterate _ _ ?body _) _ = _ =>
      pose proof (iterate_throws (S := Buffer)
                    (fun k out =>
                       out = encode (prefix k)
                             ++ repeat Byte.x00 (4 * n + 2 - 4 * k))
                    body RangeError (n - 1) 0 0 (repeat Byte.x00 (4 * n + 2)))
        as Hthrow
  end.
  change (Z.of_nat 0) with 0 in Hthrow.
  rewrite Hthrow.
  - reflexivity.
  - simpl. f_equal. lia.
  - intros i s Hi ->.
    rewrite (readInt16LE_sample b _ i) by (try apply inject_Z_eq; lia).
    cbn [bind].
    rewrite (readInt16LE_sample b _ (i + 1)) by (try apply inject_Z_eq; lia).
    cbn [bind].
    replace (4 * n + 2 - 4 * i)%nat
      with (4 + (4 * n + 2 - 4 * Datatypes.S i))%nat by lia.
    rewrite (for_lt_two_writes
               (fun j => interpolated (sample b i) (sample b (i + 1)) j)
               (fun j => inject_Z ((Z.of_nat i * 2 + j) * 2))).
    + eexists. split; [reflexivity|].
      unfold prefix. rewrite upsampled_prefix_S, encode_app. reflexivity.
    + apply interpolated_range.
    + apply interpolated_range.
    + apply inject_Z_eq. rewrite encode_length.
      unfold prefix. rewrite upsampled_prefix_length. lia.
    + apply inject_Z_eq. rewrite encode_length.
      unfold prefix. rewrite upsampled_prefix_length. lia.
  - intros s _.
    rewrite (readInt16LE_sample b _ (n - 1)) by (try apply inject_Z_eq; lia).
    cbn [bind].
    rewrite (readInt16LE_past_end b _ (2 * n)); [reflexivity| |lia].
    apply inject_Z_eq. lia.
Qed.

(** X2: [upsample8kTo16k] returns exactly on the buffers of even length
    and on those shorter than 5 bytes; on an odd length of 5 bytes or
    more it throws. *)
Lemma upsample8kTo16k_returns_iff (b : Buffer) :
  returns (upsample8kTo16k (Some b))
  <-> Z.even (Buffer_length b) = true \/ Buffer_length b < 5.
Proof.
  unfold Buffer_length. split.
  - intros [out Hout].
    destruct (Z.even (Z.of_nat (List.length b))) eqn:Hev; [now left|right].
    destruct (Z_lt_le_dec (Z.of_nat (List.length b)) 5) as [H|H]; [exact H|].
    exfalso.
    assert (Hodd : Z.odd (Z.of_nat (List.length b)) = true)
      by (rewrite <- Z.negb_even, Hev; reflexivity).
    apply Z.odd_spec in Hodd. destruct Hodd as [k Hk].
    rewrite (upsample8kTo16k_odd b (Z.to_nat k)) in Hout by lia.
    discriminate.
  - intros [Hev|Hshort].
    + apply Z.even_spec in Hev. destruct Hev as [k Hk].
      destruct (Z_lt_le_dec k 2) as [H|H].
      * eexists. apply upsample8kTo16k_short. lia.
      * eexists. apply (upsample8kTo16k_even b (Z.to_nat k)); lia.
    + destruct (Z.eq_dec (Z.of_nat (List.length b)) 4) as [H4|H4].
      * eexists. apply (upsample8kTo16k_even b 2); lia.
      * eexists. apply upsample8kTo16k_short. lia.
Qed.

(** C4: a request chunk of 5 bytes (odd length) makes [upsample8kTo16k]
    throw a RangeError at its read of [nextSample]; the "data" listener
    calls it outside any [try], so the exception leaves the handler. *)
Theorem upsample8kTo16k_odd_chunk_throws :
  upsample8kTo16k (Some (bytes_of [1; 0; 3; 0; 5])) = Throw RangeError
  /\ req_on_data (bytes_of [1; 0; 3; 0; 5]) (handleAudioStream sdk_setup)
     = Throw RangeError
  /\ downsample24kTo8k (Some (bytes_of [1; 0; 3; 0; 5]))
     = Return (bytes_of [1; 0; 3; 0; 5]).
Proof. repeat split; reflexivity. Qed.

(** ** The frame accumulators *)

Lemma Buffer_slice_front (b : Buffer) (k : Z) :
  0 <= k <= Buffer_length b ->
  Buffer_length (Buffer_slice b 0 k) = k
  /\ Buffer_slice b 0 k ++ Buffer_slice_from b k = b.
Proof.
  unfold Buffer_length, Buffer_slice, Buffer_slice_from. intro H.
  rewrite Z.sub_0_r. change (Z.to_nat 0) with 0%nat. cbn [skipn].
  split; [rewrite firstn_length_le; lia|apply firstn_skipn].
Qed.

(** The downlink tick: one 320-byte frame from the front, or nothing. *)
Lemma outputAudioBufferInterval_tick_spec (st : State) :
  let st' := outputAudioBufferInterval_tick st in
  (320 <= Buffer_length (outputAudioBuffer st) ->
     exists frame,
       written (res st') = written (res st) ++ [frame]
       /\ Buffer_length frame = 320
       /\ frame ++ outputAudioBuffer st' = outputAudioBuffer st)
  /\ (Buffer_length (outputAudioBuffer st) < 320 -> st' = st)
  /\ List.concat (written (res st')) ++ outputAudioBuffer st'
     = List.concat (written (res st)) ++ outputAudioBuffer st.
Proof.
  unfold outputAudioBufferInterval_tick.
  destruct (Z.leb_spec 320 (Buffer_length (outputAudioBuffer st))) as [H|H].
  - destruct (Buffer_slice_front (outputAudioBuffer st) 320 ltac:(lia))
      as [Hl Hs].
    state_fields.
    split; [|split].
    + intros _. exists (Buffer_slice (outputAudioBuffer st) 0 320).
      split; [reflexivity|]. split; [exact Hl|exact Hs].
    + intro. lia.
    + rewrite concat_app. cbn [List.concat]. rewrite app_nil_r, <- app_assoc.
      now rewrite Hs.
  - split; [|split]; [intro; lia|reflexivity|reflexivity].
Qed.

(** The uplink tick: one 3200-byte frame leaves the buffer; it reaches
    the transport when there is a session or an open socket. *)
Lemma inputAudioBufferInterval_tick_spec (send_throws : bool) (st : State) :
  let st' := inputAudioBufferInterval_tick send_throws st in
  (3200 <= Buffer_length (inputAudioBuffer st) ->
     exists frame,
       Buffer_length frame = 3200
       /\ frame ++ inputAudioBuffer st' = inputAudioBuffer st
       /\ uplink st' = if can_send st then uplink st ++ [frame] else uplink st)
  /\ (Buffer_length (inputAudioBuffer st) < 3200 -> st' = st).
Proof.
  unfold inputAudioBufferInterval_tick, INPUT_CHUNK_BYTES_16K_100MS, can_send.
  destruct (Z.leb_spec 3200 (Buffer_length (inputAudioBuffer st))) as [H|H].
  - destruct (Buffer_slice_front (inputAudioBuffer st) 3200 ltac:(lia))
      as [Hl Hs].
    split; [|intro; lia].
    intros _. exists (Buffer_slice (inputAudioBuffer st) 0 3200).
    state_fields.
    destruct (transport st) as [[|[| | |]]|], send_throws; state_fields;
      (split; [exact Hl|split; [exact Hs|reflexivity]]).
  - split; [intro; lia|reflexivity].
Qed.

(** C5, as the code has it: on a tick the downlink accumulator with at
    least 320 bytes writes exactly its first 320 bytes to the response as
    one frame and keeps the rest, and the uplink accumulator with at
    least 3200 bytes removes exactly its first 3200 bytes and gives them
    to the transport as one frame when there is an SDK session or an open
    socket (to no one otherwise); with fewer bytes a tick changes nothing; the written frames
    followed by the queue are the same bytes before and after a downlink
    tick; the timers run every 100 ms and every INTERVAL_MS (20 by
    default). *)
Theorem accumulator_tick_one_frame :
  (forall st,
     let st' := outputAudioBufferInterval_tick st in
     (320 <= Buffer_length (outputAudioBuffer st) ->
        exists frame,
          written (res st') = written (res st) ++ [frame]
          /\ Buffer_length frame = 320
          /\ frame ++ outputAudioBuffer st' = outputAudioBuffer st)
     /\ (Buffer_length (outputAudioBuffer st) < 320 -> st' = st)
     /\ List.concat (written (res st')) ++ outputAudioBuffer st'
        = List.concat (written (res st)) ++ outputAudioBuffer st)
  /\ (forall send_throws st,
        let st' := inputAudioBufferInterval_tick send_throws st in
        (3200 <= Buffer_length (inputAudioBuffer st) ->
           exists frame,
             Buffer_length frame = 3200
             /\ frame ++ inputAudioBuffer st' = inputAudioBuffer st
             /\ uplink st'
                = if can_send st then uplink st ++ [frame] else uplink st)
        /\ (Buffer_length (inputAudioBuffer st) < 3200 -> st' = st))
  /\ (forall env, connect_throws env = false ->
        inputAudioBufferInterval (handleAudioStream env) = Some (mkTimer 100 0)
        /\ outputAudioBufferInterval (handleAudioStream env)
           = Some (mkTimer (INTERVAL_MS (parsed_INTERVAL_MS env)) 0))
  /\ INTERVAL_MS None = 20.
Proof.
  split; [exact outputAudioBufferInterval_tick_spec|].
  split; [|split; [|reflexivity]].
  - intros send_throws st.
    exact (inputAudioBufferInterval_tick_spec send_throws st).
  - intros env Hc. unfold handleAudioStream. rewrite Hc.
    destruct (explicitWsUrl env) as [[|c u]|], (silence_throws env);
      split; reflexivity.
Qed.

Lemma accumulator_tick_one_frame_witness :
  (exists frame,
     written (res (outputAudioBufferInterval_tick
                     (set_outputAudioBuffer (repeat Byte.x07 700)
                        (handleAudioStream sdk_setup))))
     = written (res (set_outputAudioBuffer (repeat Byte.x07 700)
                       (handleAudioStream sdk_setup))) ++ [frame]
     /\ Buffer_length frame = 320
     /\ frame ++ outputAudioBuffer
                   (outputAudioBufferInterval_tick
                      (set_outputAudioBuffer (repeat Byte.x07 700)
                         (handleAudioStream sdk_setup)))
        = outputAudioBuffer
            (set_outputAudioBuffer (repeat Byte.x07 700)
               (handleAudioStream sdk_setup)))
  /\ inputAudioBufferInterval (handleAudioStream sdk_setup)
     = Some (mkTimer 100 0).
Proof.
  destruct accumulator_tick_one_frame as (Hdown & _ & Hcadence & _). split.
  - destruct (Hdown (set_outputAudioBuffer (repeat Byte.x07 700)
                       (handleAudioStream sdk_setup))) as [Hbig _].
    apply Hbig. unfold Buffer_length, set_outputAudioBuffer.
    cbn [outputAudioBuffer]. rewrite repeat_length. lia.
  - apply (Hcadence sdk_setup). reflexivity.
Defined.

(** C5 as stated fails for the uplink: while the raw socket is still
    connecting, a tick removes the 3200 queued bytes and sends nothing. *)
Lemma uplink_frame_discarded_before_open :
  exists st,
    req_on_data (repeat Byte.x01 1600) (handleAudioStream ws_setup) = Return st
    /\ Buffer_length (inputAudioBuffer st) = 3200
    /\ transport st = Some (RawSocket CONNECTING)
    /\ inputAudioBuffer (inputAudioBufferInterval_tick false st) = []
    /\ uplink (inputAudioBufferInterval_tick false st) = [].
Proof.
  eexists. split; [vm_compute; reflexivity|].
  repeat split; vm_compute; reflexivity.
Qed.

(** ** Termination of a session *)

Lemma same_but_console_refl (st : State) : same_but_console st st.
Proof. unfold same_but_console. now repeat split. Qed.

Lemma same_but_console_trans (a b c : State) :
  same_but_console a b -> same_but_console b c -> same_but_console a c.
Proof.
  unfold same_but_console.
  intros (A1 & A2 & A3 & A4 & A5 & A6 & A7 & A8 & A9 & A10)
         (B1 & B2 & B3 & B4 & B5 & B6 & B7 & B8 & B9 & B10).
  repeat split; congruence.
Qed.

Lemma same_but_console_log (msg : string) (st : State) :
  same_but_console (log msg st) st.
Proof. unfold same_but_console. state_fields. now repeat split. Qed.

Lemma sdk_append_keeps (payloads : list Buffer) :
  forall st,
    let st' := sdk_append payloads st in
    transport st' = transport st
    /\ inputAudioBufferInterval st' = inputAudioBufferInterval st
    /\ outputAudioBufferInterval st' = outputAudioBufferInterval st
    /\ end_calls (res st') = end_calls (res st).
Proof.
  induction payloads as [|p rest IH]; intro st; cbn [sdk_append].
  - now repeat split.
  - destruct (downsample24kTo8k (Some p)) as [r|e].
    + destruct (IH (set_outputAudioBuffer
                      (Buffer_concat [outputAudioBuffer st; r]) st))
        as (H1 & H2 & H3 & H4).
      now repeat split.
    + state_fields. now repeat split.
Qed.

Lemma sdk_onmessage_keeps (payloads : list Buffer) (throws : bool) (st : State) :
  let st' := sdk_onmessage payloads throws st in
  transport st' = transport st
  /\ inputAudioBufferInterval st' = inputAudioBufferInterval st
  /\ outputAudioBufferInterval st' = outputAudioBufferInterval st
  /\ end_calls (res st') = end_calls (res st).
Proof.
  unfold sdk_onmessage. destruct (wired st).
  - destruct (sdk_append_keeps payloads st) as (H1 & H2 & H3 & H4).
    destruct throws; state_fields; rewrite H1, H2, H3, H4; now repeat split.
  - destruct payloads, throws; state_fields; now repeat split.
Qed.

Section Lifecycle.
Variable Buffer_from_base64 : JsValue -> completion Buffer.

(** With the SDK session no callback clears a timer or ends the
    response: lines 193-194 and 311-323 only log and close. *)
Lemma sdk_deliver_keeps_timers (e : Event) (st st' : State) :
  transport st = Some SdkSession ->
  deliver Buffer_from_base64 e st = Return st' ->
  transport st' = Some SdkSession
  /\ inputAudioBufferInterval st' = inputAudioBufferInterval st
  /\ outputAudioBufferInterval st' = outputAudioBufferInterval st
  /\ end_calls (res st') = end_calls (res st).
Proof.
  intros Ht Hd.
  destruct e; cbn [deliver] in Hd; unfold is_ws in Hd;
    rewrite ?Ht in Hd; try (injection Hd as <-).
  - destruct (running (inputAudioBufferInterval st)); [|now repeat split].
    unfold inputAudioBufferInterval_tick.
    destruct (_ <=? _); [|now repeat split].
    state_fields. rewrite Ht.
    destruct send_throws; state_fields; now repeat split.
  - destruct (running (outputAudioBufferInterval st)); [|now repeat split].
    unfold outputAudioBufferInterval_tick.
    destruct (_ <=? _); state_fields; now repeat split.
  - destruct (wired st); [|injection Hd as <-; now repeat split].
    unfold req_on_data in Hd.
    destruct (upsample8kTo16k (Some chunk)) as [r|err]; [|discriminate].
    cbn [bind] in Hd. injection Hd as <-. state_fields. now repeat split.
  - destruct (wired st); [|now repeat split].
    state_fields. rewrite Ht. state_fields. now repeat split.
  - destruct (wired st); [|now repeat split].
    state_fields. rewrite Ht. state_fields. now repeat split.
  - now repeat split.
  - now repeat split.
  - now repeat split.
  - now repeat split.
  - destruct (sdk_callbacks st); state_fields; now repeat split.
  - destruct (sdk_callbacks st); [|now repeat split].
    destruct (sdk_onmessage_keeps payloads throws st) as (H1 & H2 & H3 & H4).
    rewrite H1, H2, H3, H4. now repeat split.
  - destruct (sdk_callbacks st); state_fields; now repeat split.
  - destruct (sdk_callbacks st); state_fields; now repeat split.
Qed.

Lemma sdk_run_keeps_timers (events : list Event) :
  forall st st',
    transport st = Some SdkSession ->
    run Buffer_from_base64 events st = Return st' ->
    inputAudioBufferInterval st' = inputAudioBufferInterval st
    /\ outputAudioBufferInterval st' = outputAudioBufferInterval st
    /\ end_calls (res st') = end_calls (res st).
Proof.
  induction events as [|e rest IH]; intros st st' Ht Hrun; cbn [run] in Hrun.
  - injection Hrun as <-. now repeat split.
  - destruct (deliver Buffer_from_base64 e st) as [st1|err] eqn:Hd;
      [|discriminate].
    cbn [bind] in Hrun.
    destruct (sdk_deliver_keeps_timers e st st1 Ht Hd) as (H1 & H2 & H3 & H4).
    destruct (IH st1 st' H1 Hrun) as (H5 & H6 & H7).
    rewrite H5, H6, H7. now repeat split.
Qed.

(** After a set-up that returned early nothing is registered and no
    timer exists: the SDK callbacks, if the SDK still runs them, write
    to the console; no event does anything else. *)
Lemma unwired_deliver (e : Event) (st : State) :
  wired st = false -> transport st = None ->
  inputAudioBufferInterval st = None ->
  outputAudioBufferInterval st = None ->
  exists st', deliver Buffer_from_base64 e st = Return st'
              /\ same_but_console st' st.
Proof.
  intros Hw Ht Hi Ho.
  destruct e; cbn [deliver]; unfold is_ws, running, sdk_onmessage;
    rewrite ?Hw, ?Ht, ?Hi, ?Ho;
    try (eexists; split; [reflexivity|apply same_but_console_refl]).
  - destruct (sdk_callbacks st); eexists; (split; [reflexivity|]);
      [apply same_but_console_log|apply same_but_console_refl].
  - destruct (sdk_callbacks st), payloads, throws;
      eexists; (split; [reflexivity|]);
      apply same_but_console_log || apply same_but_console_refl.
  - destruct (sdk_callbacks st); eexists; (split; [reflexivity|]);
      [apply same_but_console_log|apply same_but_console_refl].
  - destruct (sdk_callbacks st); eexists; (split; [reflexivity|]);
      [apply same_but_console_log|apply same_but_console_refl].
Qed.

Lemma unwired_run (events : list Event) :
  forall st,
    wired st = false -> transport st = None ->
    inputAudioBufferInterval st = None ->
    outputAudioBufferInterval st = None ->
    exists st', run Buffer_from_base64 events st = Return st'
                /\ same_but_console st' st.
Proof.
  induction events as [|e rest IH]; intros st Hw Ht Hi Ho.
  - exists st. split; [reflexivity|apply same_but_console_refl].
  - destruct (unwired_deliver e st Hw Ht Hi Ho) as (st1 & Hd & Hs1).
    pose proof Hs1 as (S1 & _ & _ & _ & _ & S6 & S7 & _ & S9 & _).
    destruct (IH st1) as (st2 & Hr & Hs2); try congruence.
    exists st2. split.
    + cbn [run]. rewrite Hd. exact Hr.
    + exact (same_but_console_trans _ _ _ Hs2 Hs1).
Qed.
End Lifecycle.

(** C6: with the SDK session, the end of the client request closes the
    session once and leaves both timers running and the response open;
    so does a request error. *)
Theorem sdk_request_end_keeps_timers :
  let ended := req_on_end (handleAudioStream sdk_setup) in
  let failed := req_on_error (handleAudioStream sdk_setup) in
  close_calls ended = 1%nat
  /\ inputAudioBufferInterval ended = Some (mkTimer 100 0)
  /\ outputAudioBufferInterval ended = Some (mkTimer 20 0)
  /\ running (inputAudioBufferInterval ended) = true
  /\ running (outputAudioBufferInterval ended) = true
  /\ end_calls (res ended) = 0%nat
  /\ close_calls failed = 1%nat
  /\ running (inputAudioBufferInterval failed) = true
  /\ running (outputAudioBufferInterval failed) = true
  /\ end_calls (res failed) = 0%nat.
Proof. repeat split; reflexivity. Qed.

(** X11: with the SDK session the timers stay as the set-up made them,
    and the response is never ended, whatever the event loop delivers. *)
Lemma sdk_session_never_cancels
    (Buffer_from_base64 : JsValue -> completion Buffer)
    (env : Setup) (events : list Event) (st : State) :
  explicitWsUrl env = None -> connect_throws env = false ->
  run Buffer_from_base64 events (handleAudioStream env) = Return st ->
  running (inputAudioBufferInterval st) = true
  /\ running (outputAudioBufferInterval st) = true
  /\ end_calls (res st) = 0%nat.
Proof.
  intros Hu Hc Hrun.
  apply sdk_run_keeps_timers in Hrun.
  - destruct Hrun as (H1 & H2 & H3). rewrite H1, H2, H3.
    unfold handleAudioStream. rewrite Hu, Hc.
    destruct (silence_throws env); now repeat split.
  - unfold handleAudioStream. rewrite Hu, Hc.
    destruct (silence_throws env); reflexivity.
Qed.

(** With the raw socket the timers are cleared by the socket's own
    "close" and "error" listeners: once when the request ends and the
    socket then closes, twice when an "error" is followed by "close". *)
Example ws_request_end_then_close :
  forall d, exists st,
    run d [ReqEnd; WsClose] (handleAudioStream ws_setup) = Return st
    /\ close_calls st = 1%nat
    /\ inputAudioBufferInterval st = Some (mkTimer 100 1)
    /\ outputAudioBufferInterval st = Some (mkTimer 20 1)
    /\ end_calls (res st) = 1%nat.
Proof. intro d. eexists. split; [reflexivity|]. now repeat split. Qed.

Example ws_error_then_close :
  forall d, exists st,
    run d [WsError; WsClose] (handleAudioStream ws_setup) = Return st
    /\ close_calls st = 0%nat
    /\ inputAudioBufferInterval st = Some (mkTimer 100 2)
    /\ outputAudioBufferInterval st = Some (mkTimer 20 2)
    /\ end_calls (res st) = 2%nat.
Proof. intro d. eexists. split; [reflexivity|]. now repeat split. Qed.

(** C7: when the connect call throws, the response is a 502 without a
    body, ended once; no timer is made, nothing is sent, no listener is
    registered, and whatever the event loop delivers afterwards changes
    nothing but lines on the console. *)
Theorem connect_failure_is_terminal
    (Buffer_from_base64 : JsValue -> completion Buffer)
    (env : Setup) (events : list Event) :
  connect_throws env = true ->
  let st := handleAudioStream env in
  statusCode (res st) = 502
  /\ written (res st) = []
  /\ end_calls (res st) = 1%nat
  /\ inputAudioBufferInterval st = None
  /\ outputAudioBufferInterval st = None
  /\ uplink st = []
  /\ transport st = None
  /\ wired st = false
  /\ exists st', run Buffer_from_base64 events st = Return st'
                 /\ same_but_console st' st.
Proof.
  intros Hc st. unfold st, handleAudioStream. rewrite Hc.
  destruct (explicitWsUrl env) as [[|c u]|];
    repeat split; apply unwired_run; reflexivity.
Qed.

Lemma connect_failure_is_terminal_witness :
  let st := handleAudioStream failing_setup in
  statusCode (res st) = 502
  /\ written (res st) = []
  /\ end_calls (res st) = 1%nat
  /\ inputAudioBufferInterval st = None
  /\ outputAudioBufferInterval st = None
  /\ uplink st = []
  /\ transport st = None
  /\ wired st = false
  /\ exists st',
       run (fun _ => Throw TypeError)
         [ReqData (bytes_of [1; 0; 2; 0]); InputTick false; SdkClose;
          OutputTick; ReqEnd]
         st = Return st'
       /\ same_but_console st' st.
Proof.
  apply (connect_failure_is_terminal (fun _ => Throw TypeError) failing_setup
           [ReqData (bytes_of [1; 0; 2; 0]); InputTick false; SdkClose;
            OutputTick; ReqEnd]).
  reflexivity.
Defined.

(** ** Messages of the raw socket *)

Section WsMessages.
Variable Buffer_from_base64 : JsValue -> completion Buffer.

(** The listener reads [outputAudioBuffer] and nothing else of the
    state: a line more on the console does not change what a later
    message appends. *)
Lemma ws_on_message_after_log (later : completion JsValue) (msg : string)
    (st : State) :
  outputAudioBuffer (ws_on_message Buffer_from_base64 later (log msg st))
  = outputAudioBuffer (ws_on_message Buffer_from_base64 later st).
Proof.
  unfold ws_on_message.
  destruct later as [message|e]; cbn [bind]; [|reflexivity].
  destruct (truthy (audio_field message)); [|reflexivity].
  destruct (Buffer_from_base64 (audio_field message)) as [decoded|e];
    cbn [bind]; [|reflexivity].
  destruct (downsample24kTo8k (Some decoded)) as [resampled|e];
    cbn [bind]; reflexivity.
Qed.

(** C8, as the code has it: a message that is not JSON, or that holds
    no audio field, never makes the listener raise; the output buffer,
    the transport, the timers and the response stay as they are; an
    error line is logged exactly when the text is not JSON (a parsed
    message without audio is skipped without a line); a later message
    appends what it would have appended without the skipped one. *)
Theorem ws_on_message_skips (parsed : completion JsValue) (st : State) :
  unrecognised parsed ->
  let st' := ws_on_message Buffer_from_base64 parsed st in
  deliver Buffer_from_base64 (WsMessage parsed) st
  = Return (if is_ws st then st' else st)
  /\ outputAudioBuffer st' = outputAudioBuffer st
  /\ inputAudioBuffer st' = inputAudioBuffer st
  /\ transport st' = transport st
  /\ close_calls st' = close_calls st
  /\ uplink st' = uplink st
  /\ inputAudioBufferInterval st' = inputAudioBufferInterval st
  /\ outputAudioBufferInterval st' = outputAudioBufferInterval st
  /\ res st' = res st
  /\ wired st' = wired st
  /\ console st'
     = console st
       ++ match parsed with
          | Throw _ => ["Error processing explicit WS message:"%string]
          | Return _ => []
          end
  /\ forall later,
       outputAudioBuffer (ws_on_message Buffer_from_base64 later st')
       = outputAudioBuffer (ws_on_message Buffer_from_base64 later st).
Proof.
  intros Hun st'. split; [reflexivity|].
  unfold st', ws_on_message.
  destruct parsed as [message|e]; cbn [bind].
  - cbn [unrecognised] in Hun. rewrite Hun.
    rewrite app_nil_r. now repeat split.
  - repeat split. intro later. apply ws_on_message_after_log.
Qed.
End WsMessages.

Lemma ws_on_message_skips_witness :
  let st := handleAudioStream ws_setup in
  let st' := ws_on_message (fun _ => Throw TypeError) (Throw SyntaxError) st in
  outputAudioBuffer st' = outputAudioBuffer st
  /\ res st' = res st
  /\ console st' = console st ++ ["Error processing explicit WS message:"%string].
Proof.
  destruct (ws_on_message_skips (fun _ => Throw TypeError) (Throw SyntaxError)
              (handleAudioStream ws_setup) I)
    as (_ & Hout & _ & _ & _ & _ & _ & _ & Hres & _ & Hlog & _).
  repeat split; assumption.
Defined.

(** C8 as stated fails on the log: the parsed message {"type": "ping"}
    holds no audio field, and the listener writes no line for it. *)
Lemma ws_on_message_skips_silently :
  unrecognised (Return (JObject [(str "type", JString (str "ping"))]))
  /\ forall decoder,
       console (ws_on_message decoder
                  (Return (JObject [(str "type", JString (str "ping"))]))
                  (handleAudioStream ws_setup))
       = console (handleAudioStream ws_setup).
Proof. split; [reflexivity|]. intro decoder. reflexivity. Qed.

(** ** [resolveLiveModel] *)

Lemma trimStart_nil_iff (s : JsString) :
  trimStart s = [] <-> forallb isWhiteSpace s = true.
Proof.
  induction s as [|c s IH]; [now split|].
  cbn [trimStart forallb]. destruct (isWhiteSpace c); cbn [andb].
  - exact IH.
  - split; discriminate.
Qed.

Lemma trimStart_all (s : JsString) :
  forallb isWhiteSpace (trimStart s) = true -> trimStart s = [].
Proof.
  induction s as [|c s IH]; [reflexivity|].
  cbn [trimStart]. destruct (isWhiteSpace c) eqn:E; [exact IH|].
  cbn [forallb]. rewrite E. discriminate.
Qed.

Lemma forallb_rev (A : Type) (f : A -> bool) (l : list A) :
  forallb f (rev l) = forallb f l.
Proof.
  induction l as [|x l IH]; [reflexivity|].
  cbn [rev forallb]. rewrite forallb_app, IH. cbn [forallb].
  rewrite andb_true_r. apply andb_comm.
Qed.

(** [trim] leaves nothing exactly of the empty and the whitespace-only
    strings. *)
Lemma trim_nil_iff (s : JsString) :
  trim s = [] <-> forallb isWhiteSpace s = true.
Proof.
  unfold trim, trimEnd. split; intro H.
  - apply trimStart_nil_iff, trimStart_all.
    rewrite <- forallb_rev. apply trimStart_nil_iff.
    apply (f_equal (@rev N)) in H. now rewrite rev_involutive in H.
  - apply trimStart_nil_iff in H. now rewrite H.
Qed.

(** A name without white space at either end is its own [trim]. *)
Lemma trim_fixed (c d : N) (s : JsString) :
  isWhiteSpace c = false -> isWhiteSpace d = false ->
  trim (c :: s ++ [d]) = c :: s ++ [d].
Proof.
  intros Hc Hd. unfold trim, trimEnd. cbn [trimStart]. rewrite Hc.
  change (c :: s ++ [d]) with ((c :: s) ++ [d]).
  rewrite rev_app_distr. cbn [rev app trimStart]. rewrite Hd.
  change (d :: rev s ++ [c]) with (rev [d] ++ rev (c :: s)).
  now rewrite <- rev_app_distr, rev_involutive.
Qed.

(** C9, as the code has it: an unset, empty or whitespace-only name
    gives the default; otherwise the name is trimmed, and its lowercase
    form decides: with "flash-live" inside, the flash preview; else with
    "native-audio" inside, the native-audio dialog model; else, starting
    with "models/", the trimmed name itself; else the trimmed name
    prefixed with "models/". *)
Theorem resolveLiveModel_cases (toLowerCase : JsString -> JsString)
    (raw : option JsString) :
  let name := match raw with Some r => r | None => [] end in
  let val := trim name in
  let lower := toLowerCase val in
  (forallb isWhiteSpace name = true ->
     resolveLiveModel toLowerCase raw
     = str "models/gemini-live-2.5-flash-preview")
  /\ (forallb isWhiteSpace name = false ->
        (includes lower (str "flash-live") = true ->
           resolveLiveModel toLowerCase raw
           = str "models/gemini-live-2.5-flash-preview")
        /\ (includes lower (str "flash-live") = false ->
            includes lower (str "native-audio") = true ->
              resolveLiveModel toLowerCase raw
              = str "models/gemini-2.5-flash-preview-native-audio-dialog")
        /\ (includes lower (str "flash-live") = false ->
            includes lower (str "native-audio") = false ->
            startsWith lower (str "models/") = true ->
              resolveLiveModel toLowerCase raw = val)
        /\ (includes lower (str "flash-live") = false ->
            includes lower (str "native-audio") = false ->
            startsWith lower (str "models/") = false ->
              resolveLiveModel toLowerCase raw = str "models/" ++ val)).
Proof.
  intros name val lower.
  assert (Hval : resolveLiveModel toLowerCase raw
                 = match val with
                   | [] => str "models/gemini-live-2.5-flash-preview"
                   | _ :: _ =>
                     if includes lower (str "flash-live")
                     then str "models/gemini-live-2.5-flash-preview"
                     else if includes lower (str "native-audio")
                     then str "models/gemini-2.5-flash-preview-native-audio-dialog"
                     else if startsWith lower (str "models/") then val
                     else str "models/" ++ val
                   end).
  { unfold lower, val, name, resolveLiveModel. destruct raw; reflexivity. }
  split.
  - intro Hws. apply trim_nil_iff in Hws. fold val in Hws.
    rewrite Hval, Hws. reflexivity.
  - intro Hws. destruct val as [|c v] eqn:Ev.
    + apply trim_nil_iff in Ev. congruence.
    + rewrite Hval. split; [|split; [|split]].
      * intros ->. reflexivity.
      * intros -> ->. reflexivity.
      * intros -> -> ->. reflexivity.
      * intros -> -> ->. reflexivity.
Qed.

Lemma resolveLiveModel_cases_witness :
  resolveLiveModel ascii_toLowerCase (Some (str "   "))
  = str "models/gemini-live-2.5-flash-preview"
  /\ resolveLiveModel ascii_toLowerCase (Some (str "Gemini-2.5-Flash-Live"))
     = str "models/gemini-live-2.5-flash-preview"
  /\ resolveLiveModel ascii_toLowerCase (Some (str "gemini-pro"))
     = str "models/" ++ trim (str "gemini-pro").
Proof.
  split; [|split].
  - destruct (resolveLiveModel_cases ascii_toLowerCase (Some (str "   ")))
      as [Hblank _].
    apply Hblank. reflexivity.
  - destruct (resolveLiveModel_cases ascii_toLowerCase
                (Some (str "Gemini-2.5-Flash-Live"))) as [_ Hname].
    destruct (Hname eq_refl) as (Hflash & _).
    apply Hflash. reflexivity.
  - destruct (resolveLiveModel_cases ascii_toLowerCase
                (Some (str "gemini-pro"))) as [_ Hname].
    destruct (Hname eq_refl) as (_ & _ & _ & Hbare).
    apply Hbare; reflexivity.
Defined.

(** C9 as stated fails on names with white space around them: the name
    "models/x " comes back without its final space, and " x" comes back
    as "models/x". *)
Lemma resolveLiveModel_trims :
  startsWith (ascii_toLowerCase (str "models/x ")) (str "models/") = true
  /\ resolveLiveModel ascii_toLowerCase (Some (str "models/x "))
     = str "models/x"
  /\ str "models/x" <> str "models/x "
  /\ resolveLiveModel ascii_toLowerCase (Some (str " x")) = str "models/x"
  /\ str "models/x" <> str "models/" ++ str " x".
Proof. repeat split; try reflexivity; discriminate. Qed.


(** * Further properties of the code *)

(** ** The resampler on arbitrary buffers *)


(** X3: on an even-length buffer of n >= 2 samples, the odd output
    sample 2i + 1 of [upsample8kTo16k] is the integer mean
    floor((s[i] + s[i+1] + 1) / 2) of its two neighbours; it lies between
    them, so the clamp of line 53 never changes a value. *)
Theorem upsample8kTo16k_midpoints (b : Buffer) (n : Z) :
  Buffer_length b = 2 * n -> 2 <= n ->
  exists out,
    upsample8kTo16k (Some b) = Return out
    /\ forall i, 0 <= i < n - 1 ->
         exists cur next,
           sample_at b i = Return cur
           /\ sample_at b (i + 1) = Return next
           /\ sample_at out (2 * i + 1) = Return ((cur + next + 1) / 2)
           /\ Z.min cur next <= (cur + next + 1) / 2 <= Z.max cur next
           /\ Math_round (inject_Z cur + inject_Z (next - cur) * (inject_Z 1 / 2))%Q
              = Math_max (-32768)
                  (Math_min 32767
                     (Math_round
                        (inject_Z cur
                         + inject_Z (next - cur) * (inject_Z 1 / 2))%Q)).
Proof.
  intros Hb Hn.
  pose proof (even_length b n Hb) as Hl.
  set (m := Z.to_nat n) in *.
  exists (encode (upsampled b m)).
  split; [apply upsample8kTo16k_even; [exact Hl|lia]|].
  intros i Hi.
  exists (sample b (Z.to_nat i)), (sample b (Z.to_nat i + 1)).
  pose proof (sample_range b (Z.to_nat i)) as Hc.
  pose proof (sample_range b (Z.to_nat i + 1)) as Hx.
  destruct (upsampled_pair b m (Z.to_nat i) ltac:(lia)) as [_ H1].
  split; [|split; [|split; [|split]]].
  - rewrite <- (Z2Nat.id i) at 1 by lia. apply sample_at_sample. lia.
  - replace (i + 1) with (Z.of_nat (Z.to_nat i + 1)) by lia.
    apply sample_at_sample. lia.
  - replace (2 * i + 1) with (Z.of_nat (2 * Z.to_nat i + 1)) by lia.
    rewrite sample_at_encode;
      [|apply upsampled_range|rewrite upsampled_length; lia].
    rewrite H1. f_equal. now apply interpolated_1.
  - Z.div_mod_to_equations. lia.
  - rewrite Math_round_j1. unfold Math_max, Math_min.
    Z.div_mod_to_equations. lia.
Qed.

Lemma upsample8kTo16k_midpoints_witness :
  exists out,
    upsample8kTo16k (Some (encode [-3; 0; 32767; 32767])) = Return out
    /\ sample_at out (2 * 0 + 1) = Return ((-3 + 0 + 1) / 2)
    /\ sample_at out (2 * 2 + 1) = Return ((32767 + 32767 + 1) / 2).
Proof.
  destruct (upsample8kTo16k_midpoints (encode [-3; 0; 32767; 32767]) 4
              eq_refl ltac:(lia)) as (out & Hout & Hmid).
  exists out. split; [exact Hout|].
  destruct (Hmid 0 ltac:(lia)) as (c0 & n0 & Hc0 & Hn0 & H0 & _).
  destruct (Hmid 2 ltac:(lia)) as (c2 & n2 & Hc2 & Hn2 & H2 & _).
  vm_compute in Hc0, Hn0, Hc2, Hn2.
  injection Hc0 as <-. injection Hn0 as <-.
  injection Hc2 as <-. injection Hn2 as <-.
  split; [exact H0|exact H2].
Defined.

Lemma sample_encode_repeat (x : Z) (n i : nat) :
  -32768 <= x <= 32767 -> (i < n)%nat ->
  sample (encode (repeat x n)) i = x.
Proof.
  intros Hx Hi. rewrite sample_encode.
  - apply nth_repeat_lt. exact Hi.
  - apply Forall_forall. intros v Hv. apply repeat_spec in Hv. lia.
  - now rewrite repeat_length.
Qed.

Lemma upsampled_constant (b : Buffer) (x : Z) (n : nat) :
  -32768 <= x <= 32767 -> (1 <= n)%nat ->
  (forall i, (i < n)%nat -> sample b i = x) ->
  upsampled b n = repeat x (2 * n).
Proof.
  intros Hx Hn Hs. unfold upsampled.
  assert (Hp : forall k, (k <= n - 1)%nat ->
            flat_map
              (fun i => [interpolated (sample b i) (sample b (i + 1)) 0;
                         interpolated (sample b i) (sample b (i + 1)) 1])
              (seq 0 k) = repeat x (2 * k)).
  { induction k as [|k IH]; intro Hk; [reflexivity|].
    rewrite upsampled_prefix_S, IH by lia.
    rewrite !Hs by lia.
    rewrite interpolated_0, interpolated_1 by lia.
    replace ((x + x + 1) / 2) with x by (Z.div_mod_to_equations; lia).
    replace (2 * Datatypes.S k)%nat with (2 * k + 2)%nat by lia.
    now rewrite repeat_app. }
  rewrite Hp, Hs by lia.
  replace (2 * n)%nat with (2 * (n - 1) + 2)%nat by lia.
  now rewrite repeat_app.
Qed.

(** X4: upsampling n >= 2 equal samples x gives 2 n samples x: a
    constant signal, silence in particular, stays what it is. *)
Theorem upsample8kTo16k_constant (x : Z) (n : nat) :
  -32768 <= x <= 32767 -> (2 <= n)%nat ->
  upsample8kTo16k (Some (encode (repeat x n)))
  = Return (encode (repeat x (2 * n))).
Proof.
  intros Hx Hn.
  rewrite (upsample8kTo16k_even _ n)
    by (rewrite ?encode_length, ?repeat_length; lia).
  f_equal. f_equal. apply upsampled_constant; [exact Hx|lia|].
  intros i Hi. now apply sample_encode_repeat.
Qed.

Lemma upsample8kTo16k_constant_witness :
  upsample8kTo16k (Some (encode (repeat 0 100)))
  = Return (encode (repeat 0 (2 * 100))).
Proof. apply (upsample8kTo16k_constant 0 100); lia. Defined.

(** X5: downsampling n >= 3 equal samples x gives floor(n / 3) samples
    x. *)
Theorem downsample24kTo8k_constant (x : Z) (n : nat) :
  -32768 <= x <= 32767 -> (3 <= n)%nat ->
  downsample24kTo8k (Some (encode (repeat x n)))
  = Return (encode (repeat x (n / 3))).
Proof.
  intros Hx Hn.
  rewrite downsample24kTo8k_long by (rewrite encode_length, repeat_length; lia).
  rewrite encode_length, repeat_length.
  replace (2 * n / 6)%nat with (n / 3)%nat.
  2:{ change 6%nat with (2 * 3)%nat.
      now rewrite Nat.Div0.div_mul_cancel_l by lia. }
  f_equal. f_equal. unfold decimated.
  assert (H3 : (3 * (n / 3) <= n)%nat) by (apply Nat.Div0.mul_div_le).
  rewrite (map_ext_in _ (fun _ => x)).
  - now rewrite map_const, length_seq.
  - intros i Hi. apply in_seq in Hi.
    apply sample_encode_repeat; [exact Hx|lia].
Qed.

Lemma downsample24kTo8k_constant_witness :
  downsample24kTo8k (Some (encode (repeat 0 480)))
  = Return (encode (repeat 0 (480 / 3))).
Proof. apply (downsample24kTo8k_constant 0 480); lia. Defined.

(** ** Frames and streams of a session *)

Lemma only_downlink_appended_refl (st : State) : only_downlink_appended st st.
Proof.
  unfold only_downlink_appended. repeat split.
  exists []. now rewrite app_nil_r.
Qed.

Lemma only_downlink_appended_log (msg : string) (st : State) :
  only_downlink_appended st (log msg st).
Proof.
  unfold only_downlink_appended. state_fields. repeat split.
  exists []. now rewrite app_nil_r.
Qed.

Lemma only_downlink_appended_trans (a b c : State) :
  only_downlink_appended a b -> only_downlink_appended b c ->
  only_downlink_appended a c.
Proof.
  unfold only_downlink_appended.
  intros (A1 & A2 & A3 & A4 & A5 & A6 & A7 & A8 & A9 & t1 & A10)
         (B1 & B2 & B3 & B4 & B5 & B6 & B7 & B8 & B9 & t2 & B10).
  repeat split; try congruence.
  exists (t1 ++ t2). now rewrite B10, A10, app_assoc.
Qed.

Lemma only_downlink_appended_set (st : State) (resampled : Buffer) :
  only_downlink_appended st
    (set_outputAudioBuffer
       (Buffer_concat [outputAudioBuffer st; resampled]) st).
Proof.
  unfold only_downlink_appended. state_fields. repeat split.
  exists resampled. unfold Buffer_concat. cbn [List.concat].
  now rewrite app_nil_r.
Qed.

Lemma sdk_append_appends (payloads : list Buffer) :
  forall st, only_downlink_appended st (sdk_append payloads st).
Proof.
  induction payloads as [|p rest IH]; intro st; cbn [sdk_append].
  - apply only_downlink_appended_refl.
  - destruct (downsample24kTo8k (Some p)) as [r|e].
    + eapply only_downlink_appended_trans;
        [apply only_downlink_appended_set|apply IH].
    + apply only_downlink_appended_log.
Qed.

Lemma sdk_onmessage_appends (payloads : list Buffer) (throws : bool)
    (st : State) :
  only_downlink_appended st (sdk_onmessage payloads throws st).
Proof.
  unfold sdk_onmessage. destruct (wired st).
  - destruct throws.
    + eapply only_downlink_appended_trans;
        [apply sdk_append_appends|apply only_downlink_appended_log].
    + apply sdk_append_appends.
  - destruct payloads, throws;
      apply only_downlink_appended_log || apply only_downlink_appended_refl.
Qed.

Lemma ws_on_message_appends
    (Buffer_from_base64 : JsValue -> completion Buffer)
    (parsed : completion JsValue) (st : State) :
  only_downlink_appended st (ws_on_message Buffer_from_base64 parsed st).
Proof.
  unfold ws_on_message.
  destruct parsed as [message|e]; cbn [bind];
    [|apply only_downlink_appended_log].
  destruct (truthy (audio_field message));
    [|apply only_downlink_appended_refl].
  destruct (Buffer_from_base64 (audio_field message)) as [decoded|e];
    cbn [bind]; [|apply only_downlink_appended_log].
  destruct (downsample24kTo8k (Some decoded)) as [resampled|e];
    cbn [bind]; [|apply only_downlink_appended_log].
  apply only_downlink_appended_set.
Qed.

Lemma frames_sized_appended (st st' : State) :
  only_downlink_appended st st' -> frames_sized st -> frames_sized st'.
Proof.
  unfold only_downlink_appended, frames_sized.
  intros (_ & _ & Hu & _ & _ & _ & Hr & _) [Hw Hup].
  now rewrite Hr, Hu.
Qed.

Lemma downlink_stream_appended (st st' : State) :
  only_downlink_appended st st' ->
  written (res st') = written (res st)
  /\ exists tail, downlink_stream st' = downlink_stream st ++ tail.
Proof.
  unfold only_downlink_appended, downlink_stream.
  intros (_ & _ & _ & _ & _ & _ & Hr & _ & _ & tail & Ht).
  rewrite Hr. split; [reflexivity|].
  exists tail. now rewrite Ht, app_assoc.
Qed.

Section Streams.
Variable Buffer_from_base64 : JsValue -> completion Buffer.

Lemma deliver_frames_sized (e : Event) (st st' : State) :
  frames_sized st ->
  deliver Buffer_from_base64 e st = Return st' ->
  frames_sized st'.
Proof.
  intros Hf Hd. pose proof Hf as [Hw Hup].
  destruct e; cbn [deliver] in Hd; try (injection Hd as <-).
  - destruct (running (inputAudioBufferInterval st)); [|exact Hf].
    destruct (inputAudioBufferInterval_tick_spec send_throws st)
      as [Hbig Hsmall].
    destruct (Z_lt_le_dec (Buffer_length (inputAudioBuffer st)) 3200) as [H|H].
    + now rewrite (Hsmall H).
    + destruct (Hbig H) as (frame & Hl & _ & Hu).
      split.
      * unfold inputAudioBufferInterval_tick.
        destruct (_ <=? _); [|exact Hw]. state_fields.
        destruct (transport st) as [[|[| | |]]|], send_throws;
          state_fields; exact Hw.
      * rewrite Hu. destruct (can_send st); [|exact Hup].
        apply Forall_app. split; [exact Hup|]. now repeat constructor.
  - destruct (running (outputAudioBufferInterval st)); [|exact Hf].
    destruct (outputAudioBufferInterval_tick_spec st) as (Hbig & Hsmall & _).
    destruct (Z_lt_le_dec (Buffer_length (outputAudioBuffer st)) 320) as [H|H].
    + now rewrite (Hsmall H).
    + destruct (Hbig H) as (frame & Hwr & Hl & _).
      split.
      * rewrite Hwr. apply Forall_app. split; [exact Hw|].
        now repeat constructor.
      * unfold outputAudioBufferInterval_tick.
        destruct (_ <=? _); state_fields; exact Hup.
  - destruct (wired st); [|injection Hd as <-; exact Hf].
    unfold req_on_data in Hd.
    destruct (upsample8kTo16k (Some chunk)) as [r|err]; [|discriminate].
    cbn [bind] in Hd. injection Hd as <-. exact Hf.
  - destruct (wired st); [|exact Hf].
    unfold frames_sized. state_fields.
    destruct (transport st) as [t|]; state_fields; exact Hf.
  - destruct (wired st); [|exact Hf].
    unfold frames_sized. state_fields.
    destruct (transport st) as [t|]; state_fields; exact Hf.
  - destruct (is_ws st); [|exact Hf].
    unfold frames_sized. state_fields.
    destruct (transport st) as [[|r]|]; state_fields; exact Hf.
  - destruct (is_ws st); [|exact Hf].
    eapply frames_sized_appended; [apply ws_on_message_appends|exact Hf].
  - destruct (is_ws st); [|exact Hf].
    unfold frames_sized. state_fields.
    destruct (transport st) as [[|r]|]; state_fields; exact Hf.
  - destruct (is_ws st); [|exact Hf].
    unfold frames_sized. state_fields.
    destruct (transport st) as [[|r]|]; state_fields; exact Hf.
  - destruct (sdk_callbacks st); exact Hf.
  - destruct (sdk_callbacks st); [|exact Hf].
    eapply frames_sized_appended; [apply sdk_onmessage_appends|exact Hf].
  - destruct (sdk_callbacks st); exact Hf.
  - destruct (sdk_callbacks st); exact Hf.
Qed.

Lemma run_frames_sized (events : list Event) :
  forall st st',
    frames_sized st ->
    run Buffer_from_base64 events st = Return st' ->
    frames_sized st'.
Proof.
  induction events as [|e rest IH]; intros st st' Hf Hrun; cbn [run] in Hrun.
  - now injection Hrun as <-.
  - destruct (deliver Buffer_from_base64 e st) as [st1|err] eqn:Hd;
      [|discriminate].
    cbn [bind] in Hrun.
    exact (IH st1 st' (deliver_frames_sized e st st1 Hf Hd) Hrun).
Qed.
End Streams.

Lemma silence_frame_length :
  Buffer_length (repeat Byte.x00 (Z.to_nat 3200)) = 3200.
Proof. unfold Buffer_length. rewrite repeat_length. lia. Qed.

Lemma handleAudioStream_frames_sized (env : Setup) :
  frames_sized (handleAudioStream env).
Proof.
  destruct env as [[[|c u]|] [|] [|] p];
    lazy -[Z.to_nat Buffer_length repeat];
    (split; [apply Forall_nil|]);
    first [apply Forall_nil
          |apply Forall_cons; [exact silence_frame_length|apply Forall_nil]].
Qed.

(** X6: whatever the set-up and whatever the event loop delivers, every
    frame written to the response has exactly 320 bytes and every frame
    given to the transport has exactly 3200 bytes. *)
Theorem emitted_frames_have_frame_size
    (Buffer_from_base64 : JsValue -> completion Buffer)
    (env : Setup) (events : list Event) (st : State) :
  run Buffer_from_base64 events (handleAudioStream env) = Return st ->
  Forall (fun f => Buffer_length f = 320) (written (res st))
  /\ Forall (fun f => Buffer_length f = 3200) (uplink st).
Proof.
  intro Hrun.
  exact (run_frames_sized Buffer_from_base64 events _ st
           (handleAudioStream_frames_sized env) Hrun).
Qed.

Lemma emitted_frames_have_frame_size_witness :
  exists st,
    run (fun _ => Throw TypeError)
      [SdkMessage [repeat Byte.x05 4000] false; OutputTick; OutputTick;
       ReqData (repeat Byte.x01 1700); InputTick true]
      (handleAudioStream sdk_setup) = Return st
    /\ List.length (written (res st)) = 2%nat
    /\ List.length (uplink st) = 2%nat
    /\ Forall (fun f => Buffer_length f = 320) (written (res st))
    /\ Forall (fun f => Buffer_length f = 3200) (uplink st).
Proof.
  eexists. split; [vm_compute; reflexivity|].
  split; [vm_compute; reflexivity|]. split; [vm_compute; reflexivity|].
  apply (emitted_frames_have_frame_size (fun _ => Throw TypeError) sdk_setup
           [SdkMessage [repeat Byte.x05 4000] false; OutputTick; OutputTick;
            ReqData (repeat Byte.x01 1700); InputTick true]).
  vm_compute. reflexivity.
Defined.

Section StreamOrder.
Variable Buffer_from_base64 : JsValue -> completion Buffer.

Lemma deliver_downlink_stream (e : Event) (st st' : State) :
  deliver Buffer_from_base64 e st = Return st' ->
  (exists frames, written (res st') = written (res st) ++ frames)
  /\ exists tail, downlink_stream st' = downlink_stream st ++ tail.
Proof.
  intro Hd.
  assert (Hsame : forall s : State,
            written (res s) = written (res st) ->
            outputAudioBuffer s = outputAudioBuffer st ->
            (exists frames, written (res s) = written (res st) ++ frames)
            /\ exists tail, downlink_stream s = downlink_stream st ++ tail).
  { intros s Hw Ho. split.
    - exists []. now rewrite app_nil_r.
    - exists []. unfold downlink_stream. now rewrite Hw, Ho, app_nil_r. }
  assert (Happ : forall s : State,
            only_downlink_appended st s ->
            (exists frames, written (res s) = written (res st) ++ frames)
            /\ exists tail, downlink_stream s = downlink_stream st ++ tail).
  { intros s Hs. destruct (downlink_stream_appended st s Hs) as [Hw Ht].
    split; [|exact Ht]. exists []. now rewrite app_nil_r. }
  destruct e; cbn [deliver] in Hd; try (injection Hd as <-).
  - destruct (running (inputAudioBufferInterval st)); [|now apply Hsame].
    apply Hsame; unfold inputAudioBufferInterval_tick;
      (destruct (_ <=? _); [|reflexivity]); state_fields;
      destruct (transport st) as [[|[| | |]]|], send_throws;
      state_fields; reflexivity.
  - destruct (running (outputAudioBufferInterval st)); [|now apply Hsame].
    destruct (outputAudioBufferInterval_tick_spec st) as (Hbig & Hsmall & Hst).
    split.
    + destruct (Z_lt_le_dec (Buffer_length (outputAudioBuffer st)) 320)
        as [H|H].
      * rewrite (Hsmall H). exists []. now rewrite app_nil_r.
      * destruct (Hbig H) as (frame & Hw & _). now exists [frame].
    + exists []. unfold downlink_stream. now rewrite Hst, app_nil_r.
  - destruct (wired st); [|injection Hd as <-; now apply Hsame].
    unfold req_on_data in Hd.
    destruct (upsample8kTo16k (Some chunk)) as [r|err]; [|discriminate].
    cbn [bind] in Hd. injection Hd as <-. now apply Hsame.
  - destruct (wired st); [|now apply Hsame].
    apply Hsame; state_fields; destruct (transport st); reflexivity.
  - destruct (wired st); [|now apply Hsame].
    apply Hsame; state_fields; destruct (transport st); reflexivity.
  - destruct (is_ws st); [|now apply Hsame].
    apply Hsame; state_fields; destruct (transport st) as [[|r]|]; reflexivity.
  - destruct (is_ws st); [|now apply Hsame].
    apply Happ, ws_on_message_appends.
  - destruct (is_ws st); [|now apply Hsame].
    apply Hsame; state_fields; destruct (transport st) as [[|r]|]; reflexivity.
  - destruct (is_ws st); [|now apply Hsame].
    apply Hsame; state_fields; destruct (transport st) as [[|r]|]; reflexivity.
  - destruct (sdk_callbacks st); now apply Hsame.
  - destruct (sdk_callbacks st); [|now apply Hsame].
    apply Happ, sdk_onmessage_appends.
  - destruct (sdk_callbacks st); now apply Hsame.
  - destruct (sdk_callbacks st); now apply Hsame.
Qed.

(** X7: toward the client nothing is dropped, rewritten or reordered:
    over any events, the frames already written stay a prefix of the
    frames written, and the bytes written followed by the bytes queued
    only grow at their end. *)
Theorem downlink_stream_only_grows (events : list Event) :
  forall st st',
    run Buffer_from_base64 events st = Return st' ->
    (exists frames, written (res st') = written (res st) ++ frames)
    /\ exists tail, downlink_stream st' = downlink_stream st ++ tail.
Proof.
  induction events as [|e rest IH]; intros st st' Hrun; cbn [run] in Hrun.
  - injection Hrun as <-. split; exists []; now rewrite app_nil_r.
  - destruct (deliver Buffer_from_base64 e st) as [st1|err] eqn:Hd;
      [|discriminate].
    cbn [bind] in Hrun.
    destruct (deliver_downlink_stream e st st1 Hd) as [[f1 Hf1] [t1 Ht1]].
    destruct (IH st1 st' Hrun) as [[f2 Hf2] [t2 Ht2]].
    split.
    + exists (f1 ++ f2). now rewrite Hf2, Hf1, app_assoc.
    + exists (t1 ++ t2). now rewrite Ht2, Ht1, app_assoc.
Qed.
End StreamOrder.

Lemma downlink_stream_only_grows_witness :
  exists st',
    run (fun _ => Throw TypeError)
      [SdkMessage [repeat Byte.x05 1200] false; OutputTick]
      (handleAudioStream sdk_setup) = Return st'
    /\ (exists frames,
          written (res st')
          = written (res (handleAudioStream sdk_setup)) ++ frames)
    /\ exists tail,
         downlink_stream st' = downlink_stream (handleAudioStream sdk_setup) ++ tail.
Proof.
  eexists. split; [vm_compute; reflexivity|].
  apply (downlink_stream_only_grows (fun _ => Throw TypeError)
           [SdkMessage [repeat Byte.x05 1200] false; OutputTick]
           (handleAudioStream sdk_setup)).
  vm_compute. reflexivity.
Defined.

(** ** Toward the remote session *)

Section UplinkOrder.
Variable Buffer_from_base64 : JsValue -> completion Buffer.



(** ** Draining the downlink queue *)

Lemma output_tick_keeps_timer (st : State) :
  outputAudioBufferInterval (outputAudioBufferInterval_tick st)
  = outputAudioBufferInterval st.
Proof.
  unfold outputAudioBufferInterval_tick.
  destruct (_ <=? _); state_fields; reflexivity.
Qed.

(** X9: a backlog leaves one frame per tick: after n ticks of the
    running downlink timer on a queue of L bytes, min(n, floor(L / 320))
    more frames have been written and that many times 320 bytes have
    left the queue; once fewer than 320 bytes remain, ticks change
    nothing. *)
Theorem output_ticks_drain (n : nat) :
  forall st,
    running (outputAudioBufferInterval st) = true ->
    exists st',
      run Buffer_from_base64 (repeat OutputTick n) st = Return st'
      /\ Z.of_nat (List.length (written (res st')))
         = Z.of_nat (List.length (written (res st)))
           + Z.min (Z.of_nat n) (Buffer_length (outputAudioBuffer st) / 320)
      /\ Buffer_length (outputAudioBuffer st')
         = Buffer_length (outputAudioBuffer st)
           - 320 * Z.min (Z.of_nat n) (Buffer_length (outputAudioBuffer st) / 320).
Proof.
  induction n as [|n IH]; intros st Hr.
  - exists st. split; [reflexivity|].
    assert (0 <= Buffer_length (outputAudioBuffer st) / 320)
      by (apply Z.div_pos; unfold Buffer_length; lia).
    split; lia.
  - cbn [repeat run deliver]. rewrite Hr. cbn [bind].
    destruct (IH (outputAudioBufferInterval_tick st)) as (st' & Hrun & Hw & Hl).
    { now rewrite output_tick_keeps_timer. }
    exists st'. split; [exact Hrun|].
    destruct (outputAudioBufferInterval_tick_spec st) as (Hbig & Hsmall & _).
    set (L := Buffer_length (outputAudioBuffer st)) in *.
    destruct (Z_lt_le_dec L 320) as [H|H].
    + rewrite (Hsmall H) in Hw, Hl. fold L in Hw, Hl.
      assert (HL0 : 0 <= L) by (unfold L, Buffer_length; lia).
      assert (Hd : L / 320 = 0) by (apply Z.div_small; lia).
      rewrite Hd in *. split; lia.
    + destruct (Hbig H) as (frame & Hwr & Hfl & Hq).
      assert (HL' : Buffer_length
                      (outputAudioBuffer (outputAudioBufferInterval_tick st))
                    = L - 320).
      { apply (f_equal (@List.length byte)) in Hq.
        rewrite length_app in Hq. unfold L, Buffer_length in *. lia. }
      rewrite HL' in Hw, Hl. rewrite Hwr, length_app in Hw. cbn [List.length] in Hw.
      assert (Hd : (L - 320) / 320 = L / 320 - 1).
      { replace (L - 320) with (L + (-1) * 320) by lia.
        rewrite Z.div_add by lia. lia. }
      rewrite Hd in Hw, Hl. split; lia.
Qed.
End UplinkOrder.


Lemma output_ticks_drain_witness :
  exists st',
    run (fun _ => Throw TypeError) (repeat OutputTick 5)
      (set_outputAudioBuffer (repeat Byte.x07 700)
         (handleAudioStream sdk_setup)) = Return st'
    /\ Z.of_nat (List.length (written (res st'))) = 0 + Z.min 5 (700 / 320)
    /\ Buffer_length (outputAudioBuffer st') = 700 - 320 * Z.min 5 (700 / 320).
Proof.
  destruct (output_ticks_drain (fun _ => Throw TypeError) 5
              (set_outputAudioBuffer (repeat Byte.x07 700)
                 (handleAudioStream sdk_setup)) eq_refl)
    as (st' & Hrun & Hw & Hl).
  exists st'. split; [exact Hrun|]. split; [exact Hw|exact Hl].
Defined.

(** ** After the raw socket has closed *)

Lemma running_clearInterval (t : option Timer) :
  running (clearInterval t) = false.
Proof. destruct t as [t|]; reflexivity. Qed.

Section AfterClose.
Variable Buffer_from_base64 : JsValue -> completion Buffer.

Lemma deliver_stopped (e : Event) (st st' : State) :
  running (inputAudioBufferInterval st) = false ->
  running (outputAudioBufferInterval st) = false ->
  deliver Buffer_from_base64 e st = Return st' ->
  running (inputAudioBufferInterval st') = false
  /\ running (outputAudioBufferInterval st') = false
  /\ written (res st') = written (res st)
  /\ uplink st' = uplink st.
Proof.
  intros Hi Ho Hd.
  assert (Happ : forall s : State,
            only_downlink_appended st s ->
            running (inputAudioBufferInterval s) = false
            /\ running (outputAudioBufferInterval s) = false
            /\ written (res s) = written (res st)
            /\ uplink s = uplink st).
  { intros s (_ & _ & Hu & _ & H5 & H6 & Hr & _).
    now rewrite H5, H6, Hr, Hu. }
  destruct e; cbn [deliver] in Hd; rewrite ?Hi, ?Ho in Hd;
    try (injection Hd as <-); try (now repeat split).
  - destruct (wired st); [|injection Hd as <-; now repeat split].
    unfold req_on_data in Hd.
    destruct (upsample8kTo16k (Some chunk)) as [r|err]; [|discriminate].
    cbn [bind] in Hd. injection Hd as <-. state_fields. now repeat split.
  - destruct (wired st); [|now repeat split].
    state_fields. destruct (transport st); state_fields; now repeat split.
  - destruct (wired st); [|now repeat split].
    state_fields. destruct (transport st); state_fields; now repeat split.
  - destruct (is_ws st); [|now repeat split].
    state_fields. destruct (transport st) as [[|r]|]; state_fields;
      now repeat split.
  - destruct (is_ws st); [|now repeat split].
    apply Happ, ws_on_message_appends.
  - destruct (is_ws st); [|now repeat split].
    state_fields. destruct (transport st) as [[|r]|]; state_fields;
      rewrite !running_clearInterval; now repeat split.
  - destruct (is_ws st); [|now repeat split].
    state_fields. destruct (transport st) as [[|r]|]; state_fields;
      rewrite !running_clearInterval; now repeat split.
  - destruct (sdk_callbacks st); state_fields; now repeat split.
  - destruct (sdk_callbacks st); [|now repeat split].
    apply Happ, sdk_onmessage_appends.
  - destruct (sdk_callbacks st); state_fields; now repeat split.
  - destruct (sdk_callbacks st); state_fields; now repeat split.
Qed.

Lemma run_stopped (events : list Event) :
  forall st st',
    running (inputAudioBufferInterval st) = false ->
    running (outputAudioBufferInterval st) = false ->
    run Buffer_from_base64 events st = Return st' ->
    running (inputAudioBufferInterval st') = false
    /\ running (outputAudioBufferInterval st') = false
    /\ written (res st') = written (res st)
    /\ uplink st' = uplink st.
Proof.
  induction events as [|e rest IH]; intros st st' Hi Ho Hrun; cbn [run] in Hrun.
  - injection Hrun as <-. now repeat split.
  - destruct (deliver Buffer_from_base64 e st) as [st1|err] eqn:Hd;
      [|discriminate].
    cbn [bind] in Hrun.
    destruct (deliver_stopped e st st1 Hi Ho Hd) as (H1 & H2 & H3 & H4).
    destruct (IH st1 st' H1 H2 Hrun) as (H5 & H6 & H7 & H8).
    rewrite H7, H8. now repeat split.
Qed.

(** X10: once the raw socket has delivered "close" or "error", the
    response has been ended and both timers are stopped for good:
    whatever is delivered afterwards, no further frame is written to the
    response and none is given to the transport. *)
Theorem ws_close_stops_pacing (e : Event) (events : list Event)
    (st st1 st2 : State) :
  e = WsClose \/ e = WsError ->
  is_ws st = true ->
  deliver Buffer_from_base64 e st = Return st1 ->
  run Buffer_from_base64 events st1 = Return st2 ->
  end_calls (res st1) = Datatypes.S (end_calls (res st))
  /\ running (inputAudioBufferInterval st2) = false
  /\ running (outputAudioBufferInterval st2) = false
  /\ written (res st2) = written (res st1)
  /\ uplink st2 = uplink st1.
Proof.
  intros He Hws Hd Hrun.
  assert (Hst1 : end_calls (res st1) = Datatypes.S (end_calls (res st))
                 /\ running (inputAudioBufferInterval st1) = false
                 /\ running (outputAudioBufferInterval st1) = false).
  { destruct He as [-> | ->]; cbn [deliver] in Hd; rewrite Hws in Hd;
      injection Hd as <-; state_fields;
      destruct (transport st) as [[|r]|]; state_fields;
      rewrite !running_clearInterval; now repeat split. }
  destruct Hst1 as (Hend & Hi & Ho).
  split; [exact Hend|].
  exact (run_stopped events st1 st2 Hi Ho Hrun).
Qed.
End AfterClose.

Lemma ws_close_stops_pacing_witness :
  exists st1 st2,
    deliver (fun _ => Throw TypeError) WsClose
      (set_outputAudioBuffer (repeat Byte.x07 700) (handleAudioStream ws_setup))
    = Return st1
    /\ run (fun _ => Throw TypeError) [OutputTick; InputTick false; ReqEnd] st1
       = Return st2
    /\ running (outputAudioBufferInterval st2) = false
    /\ written (res st2) = written (res st1).
Proof.
  eexists. eexists.
  split; [vm_compute; reflexivity|]. split; [vm_compute; reflexivity|].
  refine (let H := ws_close_stops_pacing (fun _ => Throw TypeError) WsClose
                     [OutputTick; InputTick false; ReqEnd]
                     (set_outputAudioBuffer (repeat Byte.x07 700)
                        (handleAudioStream ws_setup))
                     _ _ (or_introl eq_refl) _ _ _ in _).
  - destruct H as (_ & _ & Ho & Hw & _). split; [exact Ho|exact Hw].
  Unshelve.
  + vm_compute. reflexivity.
  + vm_compute. reflexivity.
  + vm_compute. reflexivity.
Defined.

Lemma sdk_session_never_cancels_witness :
  exists st,
    run (fun _ => Throw TypeError) [ReqEnd; SdkClose; ReqError; SdkError]
      (handleAudioStream sdk_setup) = Return st
    /\ running (inputAudioBufferInterval st) = true
    /\ running (outputAudioBufferInterval st) = true
    /\ end_calls (res st) = 0%nat.
Proof.
  eexists. split; [reflexivity|].
  apply (sdk_session_never_cancels (fun _ => Throw TypeError) sdk_setup
           [ReqEnd; SdkClose; ReqError; SdkError]); reflexivity.
Defined.

(** ** Send failures *)

(** X12: a send that fails costs a line on the console and nothing
    else: after a failed uplink send the state is the one after a
    successful send (the frame has left the queue and is not queued
    again), and a failed initial silence frame leaves the set-up as it
    would be otherwise. *)
Theorem send_failure_only_logs :
  (forall st,
     same_but_console (inputAudioBufferInterval_tick true st)
       (inputAudioBufferInterval_tick false st))
  /\ (forall url connect parsed,
        same_but_console
          (handleAudioStream (mkSetup url connect true parsed))
          (handleAudioStream (mkSetup url connect false parsed))).
Proof.
  split.
  - intro st. unfold inputAudioBufferInterval_tick.
    destruct (_ <=? _); [|apply same_but_console_refl]. state_fields.
    destruct (transport st) as [[|[| | |]]|];
      unfold same_but_console; state_fields; now repeat split.
  - intros [[|c u]|] [|] parsed;
      unfold same_but_console; lazy -[Z.to_nat repeat INTERVAL_MS];
      now repeat split.
Qed.

(** ** Whole samples *)

Lemma upsample8kTo16k_whole_samples (chunk : Buffer) :
  Z.even (Buffer_length chunk) = true ->
  exists resampled,
    upsample8kTo16k (Some chunk) = Return resampled
    /\ Z.even (Buffer_length resampled) = true.
Proof.
  intro Hev. pose proof Hev as Hev'.
  apply Z.even_spec in Hev'. destruct Hev' as [k Hk].
  destruct (Z_lt_le_dec k 2) as [H|H].
  - exists chunk. split; [|exact Hev].
    apply upsample8kTo16k_short. unfold Buffer_length in Hk. lia.
  - eexists. split.
    + apply (upsample8kTo16k_even chunk (Z.to_nat k));
        unfold Buffer_length in Hk; lia.
    + unfold Buffer_length. rewrite encode_length, Nat2Z.inj_mul.
      apply Z.even_mul.
Qed.

Lemma downsample24kTo8k_whole_samples (decoded : Buffer) :
  Z.even (Buffer_length decoded) = true ->
  exists resampled,
    downsample24kTo8k (Some decoded) = Return resampled
    /\ Z.even (Buffer_length resampled) = true.
Proof.
  intro Hev.
  destruct (Nat.lt_ge_cases (List.length decoded) 6) as [H|H].
  - exists decoded. split; [now apply downsample24kTo8k_short|exact Hev].
  - eexists. split; [now apply downsample24kTo8k_long|].
    unfold Buffer_length. rewrite encode_length, Nat2Z.inj_mul.
    apply Z.even_mul.
Qed.

Lemma even_length_app (a b : Buffer) :
  Z.even (Buffer_length a) = true -> Z.even (Buffer_length b) = true ->
  Z.even (Buffer_length (a ++ b)) = true.
Proof.
  unfold Buffer_length. intros Ha Hb.
  rewrite length_app, Nat2Z.inj_add, Z.even_add, Ha, Hb. reflexivity.
Qed.

Lemma even_length_rest (b frame rest : Buffer) (k : Z) :
  Z.even k = true -> Buffer_length frame = k -> frame ++ rest = b ->
  Z.even (Buffer_length b) = true -> Z.even (Buffer_length rest) = true.
Proof.
  unfold Buffer_length. intros Hk Hf <- Hb.
  rewrite length_app, Nat2Z.inj_add, Z.even_add, Hf, Hk in Hb.
  now destruct (Z.even (Z.of_nat (List.length rest))).
Qed.

Lemma sdk_append_whole_samples (payloads : list Buffer) :
  forall st,
    Forall (fun p => Z.even (Buffer_length p) = true) payloads ->
    sample_aligned st -> sample_aligned (sdk_append payloads st).
Proof.
  induction payloads as [|p rest IH]; intros st Hp Hst; cbn [sdk_append];
    [exact Hst|].
  inversion Hp as [|? ? Hp1 Hp2]; subst.
  destruct (downsample24kTo8k_whole_samples p Hp1) as (r & Hr & Hre).
  rewrite Hr. apply IH; [exact Hp2|].
  destruct Hst as [Hi Ho]. unfold sample_aligned, Buffer_concat.
  state_fields. cbn [List.concat]. rewrite app_nil_r.
  split; [exact Hi|now apply even_length_app].
Qed.

Section WholeSamples.
Variable Buffer_from_base64 : JsValue -> completion Buffer.
Hypothesis decoded_whole :
  forall v decoded,
    Buffer_from_base64 v = Return decoded ->
    Z.even (Buffer_length decoded) = true.

Lemma deliver_whole_samples (e : Event) (st : State) :
  whole_samples e -> sample_aligned st ->
  exists st', deliver Buffer_from_base64 e st = Return st'
              /\ sample_aligned st'.
Proof.
  intros He Hst. pose proof Hst as [Hi Ho].
  destruct e; cbn [deliver whole_samples] in *;
    try (eexists; split; [reflexivity|]).
  - destruct (running (inputAudioBufferInterval st)); [|exact Hst].
    destruct (inputAudioBufferInterval_tick_spec send_throws st)
      as [Hbig Hsmall].
    destruct (Z_lt_le_dec (Buffer_length (inputAudioBuffer st)) 3200) as [H|H].
    + now rewrite (Hsmall H).
    + destruct (Hbig H) as (frame & Hl & Hq & _). split.
      * exact (even_length_rest _ frame _ 3200 eq_refl Hl Hq Hi).
      * unfold inputAudioBufferInterval_tick.
        destruct (_ <=? _); [|exact Ho]. state_fields.
        destruct (transport st) as [[|[| | |]]|], send_throws;
          state_fields; exact Ho.
  - destruct (running (outputAudioBufferInterval st)); [|exact Hst].
    destruct (outputAudioBufferInterval_tick_spec st) as (Hbig & Hsmall & _).
    destruct (Z_lt_le_dec (Buffer_length (outputAudioBuffer st)) 320) as [H|H].
    + now rewrite (Hsmall H).
    + destruct (Hbig H) as (frame & _ & Hl & Hq). split.
      * unfold outputAudioBufferInterval_tick.
        destruct (_ <=? _); state_fields; exact Hi.
      * exact (even_length_rest _ frame _ 320 eq_refl Hl Hq Ho).
  - destruct (wired st); [|exists st; split; [reflexivity|exact Hst]].
    unfold req_on_data.
    destruct (upsample8kTo16k_whole_samples chunk He) as (r & Hr & Hre).
    rewrite Hr. cbn [bind]. eexists. split; [reflexivity|].
    unfold sample_aligned, Buffer_concat. state_fields.
    cbn [List.concat]. rewrite app_nil_r.
    split; [now apply even_length_app|exact Ho].
  - destruct (wired st); [|exact Hst].
    unfold sample_aligned. state_fields.
    destruct (transport st); state_fields; exact Hst.
  - destruct (wired st); [|exact Hst].
    unfold sample_aligned. state_fields.
    destruct (transport st); state_fields; exact Hst.
  - destruct (is_ws st); [|exact Hst].
    unfold sample_aligned. state_fields.
    destruct (transport st) as [[|r]|]; state_fields; exact Hst.
  - destruct (is_ws st); [|exact Hst].
    unfold ws_on_message.
    destruct parsed as [message|err]; cbn [bind]; [|exact Hst].
    destruct (truthy (audio_field message)); [|exact Hst].
    destruct (Buffer_from_base64 (audio_field message)) as [decoded|err]
      eqn:Hdec; cbn [bind]; [|exact Hst].
    destruct (downsample24kTo8k_whole_samples decoded
                (decoded_whole _ _ Hdec)) as (r & Hr & Hre).
    rewrite Hr. cbn [bind].
    unfold sample_aligned, Buffer_concat. state_fields.
    cbn [List.concat]. rewrite app_nil_r.
    split; [exact Hi|now apply even_length_app].
  - destruct (is_ws st); [|exact Hst].
    unfold sample_aligned. state_fields.
    destruct (transport st) as [[|r]|]; state_fields; exact Hst.
  - destruct (is_ws st); [|exact Hst].
    unfold sample_aligned. state_fields.
    destruct (transport st) as [[|r]|]; state_fields; exact Hst.
  - destruct (sdk_callbacks st); exact Hst.
  - destruct (sdk_callbacks st); [|exact Hst].
    unfold sdk_onmessage. destruct (wired st).
    + destruct throws; [|now apply sdk_append_whole_samples].
      apply (sdk_append_whole_samples payloads st He) in Hst.
      exact Hst.
    + destruct payloads, throws; exact Hst.
  - destruct (sdk_callbacks st); exact Hst.
  - destruct (sdk_callbacks st); exact Hst.
Qed.

(** X13: when every request chunk and every decoded remote payload is
    made of whole 16-bit samples, no callback raises and both queues
    hold whole samples at all times: no frame is ever cut in the middle
    of a sample. *)
Theorem queues_stay_sample_aligned (events : list Event) :
  forall st,
    Forall whole_samples events -> sample_aligned st ->
    exists st', run Buffer_from_base64 events st = Return st'
                /\ sample_aligned st'.
Proof.
  induction events as [|e rest IH]; intros st Hev Hst.
  - exists st. split; [reflexivity|exact Hst].
  - inversion Hev as [|? ? He Hrest]; subst.
    destruct (deliver_whole_samples e st He Hst) as (st1 & Hd & Hst1).
    destruct (IH st1 Hrest Hst1) as (st2 & Hrun & Hst2).
    exists st2. split; [|exact Hst2].
    cbn [run]. rewrite Hd. exact Hrun.
Qed.
End WholeSamples.

Lemma queues_stay_sample_aligned_witness :
  exists st',
    run (fun _ => Return (encode [10; 11; 12; 20; 21; 22]))
      [WsOpen; ReqData (bytes_of [1; 0; 2; 0; 3; 0]); InputTick false;
       WsMessage (Return (JObject [(str "audio", JString (str "CgALAAwAFAAVABYA"))]));
       OutputTick]
      (handleAudioStream ws_setup) = Return st'
    /\ sample_aligned st'.
Proof.
  apply (queues_stay_sample_aligned
           (fun _ => Return (encode [10; 11; 12; 20; 21; 22]))).
  - intros v decoded H. injection H as <-. reflexivity.
  - repeat constructor.
  - split; reflexivity.
Defined.

(** ** A message with audio on the raw socket *)

(** X14: for a parsed message whose audio field is truthy, the
    "message" listener appends exactly the downsampled decoded bytes to
    the output buffer and writes no line when the field decodes, and
    writes one error line and appends nothing when it does not; the
    rest of the state is untouched either way. *)
Theorem ws_on_message_audio
    (Buffer_from_base64 : JsValue -> completion Buffer)
    (message : JsValue) (st : State) :
  truthy (audio_field message) = true ->
  (forall decoded,
     Buffer_from_base64 (audio_field message) = Return decoded ->
     exists resampled,
       downsample24kTo8k (Some decoded) = Return resampled
       /\ ws_on_message Buffer_from_base64 (Return message) st
          = set_outputAudioBuffer (outputAudioBuffer st ++ resampled) st)
  /\ (forall e,
        Buffer_from_base64 (audio_field message) = Throw e ->
        ws_on_message Buffer_from_base64 (Return message) st
        = log "Error processing explicit WS message:" st).
Proof.
  intro Ht. unfold ws_on_message. cbn [bind]. rewrite Ht. split.
  - intros decoded Hd. rewrite Hd. cbn [bind].
    destruct (downsample24kTo8k_returns (Some decoded)) as [r Hr].
    exists r. split; [exact Hr|]. rewrite Hr. cbn [bind].
    unfold Buffer_concat. cbn [List.concat]. now rewrite app_nil_r.
  - intros e Hd. now rewrite Hd.
Qed.

Lemma ws_on_message_audio_witness :
  exists resampled,
    downsample24kTo8k (Some (encode [10; 11; 12; 20; 21; 22])) = Return resampled
    /\ ws_on_message (fun _ => Return (encode [10; 11; 12; 20; 21; 22]))
         (Return (JObject [(str "delta", JString (str "CgALAAwAFAAVABYA"))]))
         (handleAudioStream ws_setup)
       = set_outputAudioBuffer
           (outputAudioBuffer (handleAudioStream ws_setup) ++ resampled)
           (handleAudioStream ws_setup).
Proof.
  destruct (ws_on_message_audio
              (fun _ => Return (encode [10; 11; 12; 20; 21; 22]))
              (JObject [(str "delta", JString (str "CgALAAwAFAAVABYA"))])
              (handleAudioStream ws_setup) eq_refl) as [Hok _].
  exact (Hok _ eq_refl).
Defined.

(** ** [resolveLiveModel] applied to its own result *)

Lemma trimStart_idem (s : JsString) : trimStart (trimStart s) = trimStart s.
Proof.
  induction s as [|c s IH]; [reflexivity|].
  cbn [trimStart]. destruct (isWhiteSpace c) eqn:E; [exact IH|].
  cbn [trimStart]. now rewrite E.
Qed.

Lemma trimStart_head (s : JsString) :
  trimStart s = [] \/ exists c t, trimStart s = c :: t /\ isWhiteSpace c = false.
Proof.
  induction s as [|c s IH]; [now left|].
  cbn [trimStart]. destruct (isWhiteSpace c) eqn:E; [exact IH|].
  right. now exists c, s.
Qed.

Lemma trimStart_snoc (l : JsString) (c : N) :
  isWhiteSpace c = false -> trimStart (l ++ [c]) = trimStart l ++ [c].
Proof.
  intro Hc. induction l as [|x l IH]; cbn [app trimStart].
  - now rewrite Hc.
  - destruct (isWhiteSpace x); [exact IH|reflexivity].
Qed.

Lemma trimEnd_cons (c : N) (s : JsString) :
  isWhiteSpace c = false -> trimEnd (c :: s) = c :: trimEnd s.
Proof.
  intro Hc. unfold trimEnd. cbn [rev].
  rewrite trimStart_snoc by exact Hc.
  now rewrite rev_app_distr.
Qed.

Lemma trimEnd_idem (s : JsString) : trimEnd (trimEnd s) = trimEnd s.
Proof. unfold trimEnd. now rewrite rev_involutive, trimStart_idem. Qed.

(** Trimming twice is trimming once. *)
Lemma trim_idem (s : JsString) : trim (trim s) = trim s.
Proof.
  unfold trim.
  destruct (trimStart_head s) as [H|(c & t & H & Hc)]; rewrite H.
  - reflexivity.
  - rewrite (trimEnd_cons c t Hc). cbn [trimStart]. rewrite Hc.
    now rewrite (trimEnd_cons c _ Hc), trimEnd_idem.
Qed.

Lemma trimEnd_of_trimmed (v : JsString) : trim v = v -> trimEnd v = v.
Proof.
  intro H. rewrite <- H at 1. unfold trim.
  rewrite trimEnd_idem. exact H.
Qed.

Lemma trim_models_prefix (v : JsString) :
  trim v = v -> trim (str "models/" ++ v) = str "models/" ++ v.
Proof.
  intro H. unfold trim. cbn [str list_ascii_of_string map app trimStart].
  change (isWhiteSpace (N_of_ascii "m")) with false. cbv iota.
  rewrite !trimEnd_cons by reflexivity.
  now rewrite (trimEnd_of_trimmed v H).
Qed.

Lemma includes_skip (c f : N) (s n : JsString) :
  (c =? f)%N = false -> includes (c :: s) (f :: n) = includes s (f :: n).
Proof. intro H. cbn [includes startsWith]. now rewrite H. Qed.

(** No occurrence of "flash-live" or of "native-audio" starts inside the
    prefix "models/". *)
Lemma includes_models_flash (t : JsString) :
  includes (str "models/" ++ t) (str "flash-live")
  = includes t (str "flash-live").
Proof.
  cbn [str list_ascii_of_string map app].
  now rewrite !includes_skip by reflexivity.
Qed.

Lemma includes_models_native (t : JsString) :
  includes (str "models/" ++ t) (str "native-audio")
  = includes t (str "native-audio").
Proof.
  cbn [str list_ascii_of_string map app].
  now rewrite !includes_skip by reflexivity.
Qed.

Lemma startsWith_models (t : JsString) :
  startsWith (str "models/" ++ t) (str "models/") = true.
Proof. destruct t; reflexivity. Qed.

Section Idempotence.
Variable toLowerCase : JsString -> JsString.
(** The names the function produces are lowercase already, and the
    seven ASCII code units of "models/" lowercase to themselves in front
    of any text. *)
Hypothesis lower_flash :
  toLowerCase (str "models/gemini-live-2.5-flash-preview")
  = str "models/gemini-live-2.5-flash-preview".
Hypothesis lower_native :
  toLowerCase (str "models/gemini-2.5-flash-preview-native-audio-dialog")
  = str "models/gemini-2.5-flash-preview-native-audio-dialog".
Hypothesis lower_prefix :
  forall v, toLowerCase (str "models/" ++ v) = str "models/" ++ toLowerCase v.

Lemma resolveLiveModel_of_trimmed (c : N) (v : JsString) :
  trim (c :: v) = c :: v ->
  resolveLiveModel toLowerCase (Some (c :: v))
  = if includes (toLowerCase (c :: v)) (str "flash-live")
    then str "models/gemini-live-2.5-flash-preview"
    else if includes (toLowerCase (c :: v)) (str "native-audio")
    then str "models/gemini-2.5-flash-preview-native-audio-dialog"
    else if startsWith (toLowerCase (c :: v)) (str "models/") then c :: v
    else str "models/" ++ c :: v.
Proof. intro H. unfold resolveLiveModel. now rewrite H. Qed.

(** X15: [resolveLiveModel] is idempotent: a name it has produced is
    returned as it is. *)
Theorem resolveLiveModel_idempotent (raw : option JsString) :
  resolveLiveModel toLowerCase (Some (resolveLiveModel toLowerCase raw))
  = resolveLiveModel toLowerCase raw.
Proof.
  assert (Hflash :
    resolveLiveModel toLowerCase
      (Some (str "models/gemini-live-2.5-flash-preview"))
    = str "models/gemini-live-2.5-flash-preview").
  { change (str "models/gemini-live-2.5-flash-preview")
      with (N_of_ascii "m" :: str "odels/gemini-live-2.5-flash-preview").
    rewrite resolveLiveModel_of_trimmed by reflexivity.
    change (N_of_ascii "m" :: str "odels/gemini-live-2.5-flash-preview")
      with (str "models/gemini-live-2.5-flash-preview").
    rewrite lower_flash. reflexivity. }
  assert (Hnative :
    resolveLiveModel toLowerCase
      (Some (str "models/gemini-2.5-flash-preview-native-audio-dialog"))
    = str "models/gemini-2.5-flash-preview-native-audio-dialog").
  { change (str "models/gemini-2.5-flash-preview-native-audio-dialog")
      with (N_of_ascii "m"
            :: str "odels/gemini-2.5-flash-preview-native-audio-dialog").
    rewrite resolveLiveModel_of_trimmed by reflexivity.
    change (N_of_ascii "m"
            :: str "odels/gemini-2.5-flash-preview-native-audio-dialog")
      with (str "models/gemini-2.5-flash-preview-native-audio-dialog").
    rewrite lower_native. reflexivity. }
  set (name := match raw with Some r => r | None => str "" end).
  assert (Hraw : resolveLiveModel toLowerCase raw
                 = resolveLiveModel toLowerCase (Some name))
    by (destruct raw; reflexivity).
  rewrite Hraw. unfold resolveLiveModel at 2 3. fold name.
  pose proof (trim_idem name) as Hidem.
  destruct (trim name) as [|c v] eqn:Ev; [exact Hflash|].
  destruct (includes (toLowerCase (c :: v)) (str "flash-live")) eqn:E1;
    [exact Hflash|].
  destruct (includes (toLowerCase (c :: v)) (str "native-audio")) eqn:E2;
    [exact Hnative|].
  destruct (startsWith (toLowerCase (c :: v)) (str "models/")) eqn:E3.
  - rewrite resolveLiveModel_of_trimmed by exact Hidem.
    now rewrite E1, E2, E3.
  - pose proof (trim_models_prefix (c :: v) Hidem) as Hp.
    change (str "models/" ++ c :: v)
      with (N_of_ascii "m" :: (str "odels/" ++ c :: v)) in *.
    rewrite resolveLiveModel_of_trimmed by exact Hp.
    change (N_of_ascii "m" :: (str "odels/" ++ c :: v))
      with (str "models/" ++ c :: v).
    rewrite lower_prefix.
    rewrite includes_models_flash, includes_models_native, E1, E2.
    now rewrite startsWith_models.
Qed.

(** X16: the result of [resolveLiveModel] is never empty, and it starts
    with "models/" except when it is the trimmed name itself, kept
    because its lowercase form starts with "models/": a name written
    "MODELS/x" goes through with its own capitals. *)
Theorem resolveLiveModel_namespace (raw : option JsString) :
  let name := match raw with Some r => r | None => str "" end in
  resolveLiveModel toLowerCase raw <> []
  /\ (startsWith (resolveLiveModel toLowerCase raw) (str "models/") = true
      \/ (resolveLiveModel toLowerCase raw = trim name
          /\ startsWith (toLowerCase (trim name)) (str "models/") = true)).
Proof.
  intro name.
  assert (Hraw : resolveLiveModel toLowerCase raw
                 = resolveLiveModel toLowerCase (Some name))
    by (destruct raw; reflexivity).
  rewrite Hraw. unfold resolveLiveModel. fold name.
  destruct (trim name) as [|c v] eqn:Ev;
    [split; [discriminate|now left]|].
  destruct (includes (toLowerCase (c :: v)) (str "flash-live"));
    [split; [discriminate|now left]|].
  destruct (includes (toLowerCase (c :: v)) (str "native-audio"));
    [split; [discriminate|now left]|].
  destruct (startsWith (toLowerCase (c :: v)) (str "models/")) eqn:E3.
  - split; [discriminate|]. right. now split.
  - split; [discriminate|now left].
Qed.
End Idempotence.

Lemma ascii_toLowerCase_app (a b : JsString) :
  ascii_toLowerCase (a ++ b) = ascii_toLowerCase a ++ ascii_toLowerCase b.
Proof. apply map_app. Qed.

Lemma resolveLiveModel_idempotent_witness :
  resolveLiveModel ascii_toLowerCase
    (Some (resolveLiveModel ascii_toLowerCase (Some (str "  Gemini-Pro "))))
  = resolveLiveModel ascii_toLowerCase (Some (str "  Gemini-Pro ")).
Proof.
  apply (resolveLiveModel_idempotent ascii_toLowerCase).
  - reflexivity.
  - reflexivity.
  - intro v. apply ascii_toLowerCase_app.
Defined.

(** ** A WAV part of an SDK message *)





(** ** The set-up of the revision with tool calling *)

Lemma append_phone_hint_once (phone : JsString) (i : option JsString) :
  trim phone <> [] ->
  append_phone_hint (Some phone) i
  = Some ((match i with
           | Some (c :: text) => c :: text
           | _ => DEFAULT_INSTRUCTIONS
           end) ++ phone_hint (trim phone)).
Proof.
  intro Hp. unfold append_phone_hint.
  destruct (trim phone); [now elim Hp|reflexivity].
Qed.

Lemma append_phone_hint_iter (phone : JsString) (c : N) (t : JsString)
    (n : nat) :
  trim phone <> [] ->
  Nat.iter n (append_phone_hint (Some phone)) (Some (c :: t))
  = Some ((c :: t) ++ List.concat (repeat (phone_hint (trim phone)) n)).
Proof.
  intro Hp. induction n as [|n IH].
  - cbn [Nat.iter nat_rect repeat List.concat]. now rewrite app_nil_r.
  - change (Nat.iter (Datatypes.S n) (append_phone_hint (Some phone))
              (Some (c :: t)))
      with (append_phone_hint (Some phone)
              (Nat.iter n (append_phone_hint (Some phone)) (Some (c :: t)))).
    rewrite IH, append_phone_hint_once by exact Hp.
    cbn [app]. apply f_equal. apply f_equal.
    rewrite <- app_assoc. apply f_equal.
    replace (Datatypes.S n) with (n + 1)%nat by lia.
    rewrite repeat_app, concat_app. cbn [repeat List.concat].
    now rewrite app_nil_r.
Qed.

(** X18: every request that sets up the SDK session with a non-blank
    TEMP_PHONE_NUMBER appends the phone hint to the process-wide
    GEMINI_INSTRUCTIONS once more: after n + 1 requests the variable
    holds its first text (or the default one) followed by n + 1 copies
    of the hint. *)
Theorem phone_hint_accumulates (phone : JsString)
    (instructions : option JsString) (n : nat) :
  trim phone <> [] ->
  Nat.iter (Datatypes.S n) (append_phone_hint (Some phone)) instructions
  = Some ((match instructions with
           | Some (c :: text) => c :: text
           | _ => DEFAULT_INSTRUCTIONS
           end)
          ++ List.concat (repeat (phone_hint (trim phone)) (Datatypes.S n))).
Proof.
  intro Hp. rewrite Nat.iter_succ_r, append_phone_hint_once by exact Hp.
  destruct instructions as [[|c t]|];
    try change DEFAULT_INSTRUCTIONS
      with (N_of_ascii "Y"
            :: str "ou are a helpful assistant and answer in a friendly tone.");
    cbn [app]; rewrite append_phone_hint_iter by exact Hp;
    cbn [repeat List.concat app]; now rewrite <- !app_assoc.
Qed.

Lemma phone_hint_accumulates_witness :
  Nat.iter 3 (append_phone_hint (Some (str " 01000000000 "))) None
  = Some (DEFAULT_INSTRUCTIONS
          ++ List.concat (repeat (phone_hint (trim (str " 01000000000 "))) 3)).
Proof.
  apply (phone_hint_accumulates (str " 01000000000 ") None 2).
  discriminate.
Defined.

Lemma JsString_eqb_eq (a b : JsString) : JsString_eqb a b = true -> a = b.
Proof.
  unfold JsString_eqb. intro H. apply andb_true_iff in H. destruct H as [Hl Hs].
  apply Nat.eqb_eq in Hl. revert b Hl Hs.
  induction a as [|x a IH]; intros [|y b] Hl Hs; try discriminate;
    [reflexivity|].
  cbn [startsWith] in Hs. apply andb_true_iff in Hs. destruct Hs as [Hxy Hs].
  apply N.eqb_eq in Hxy. subst y. f_equal. apply IH; [|exact Hs].
  simpl in Hl. lia.
Qed.

Lemma own_property_object_set_other
    (fields : list (JsString * JsValue)) (k key : JsString) (v : JsValue) :
  k <> key ->
  own_property (object_set fields k v) key = own_property fields key.
Proof.
  intro Hne. unfold object_set.
  destruct (existsb _ fields).
  - induction fields as [|[k' v'] rest IH]; [reflexivity|].
    cbn [map fst own_property].
    destruct (JsString_eqb k' k) eqn:Ek; cbn [own_property fst].
    + apply JsString_eqb_eq in Ek. subst k'.
      destruct (JsString_eqb k key) eqn:Ekey;
        [apply JsString_eqb_eq in Ekey; contradiction|exact IH].
    + destruct (JsString_eqb k' key); [reflexivity|exact IH].
  - induction fields as [|[k' v'] rest IH]; cbn [app own_property].
    + destruct (JsString_eqb k key) eqn:Ekey;
        [apply JsString_eqb_eq in Ekey; contradiction|reflexivity].
    + destruct (JsString_eqb k' key); [reflexivity|exact IH].
Qed.

(** An index key starts with a decimal digit. *)
Lemma index_key_digit (i : nat) :
  exists c rest, index_key i = c :: rest /\ (48 <= c <= 57)%N.
Proof.
  unfold index_key, NilZero.string_of_uint.
  destruct (Nat.to_uint i);
    cbn [NilEmpty.string_of_uint str list_ascii_of_string map];
    eexists; eexists; (split; [reflexivity|]); cbn; lia.
Qed.

Lemma spread_array_keeps_named
    (items : list JsValue) (target : list (JsString * JsValue))
    (c : N) (key : JsString) :
  (c < 48 \/ 57 < c)%N ->
  own_property (spread target (JArray items)) (c :: key)
  = own_property target (c :: key).
Proof.
  intro Hc. cbn [spread].
  generalize (combine (seq 0 (List.length items)) items) as l.
  intro l. revert target.
  induction l as [|[i v] l IH]; intro target; [reflexivity|].
  cbn [fold_left fst snd]. rewrite IH.
  apply own_property_object_set_other.
  destruct (index_key_digit i) as (d & rest & -> & Hd).
  intro H. injection H as -> _. lia.
Qed.

(** X19: spreading the [tools] array into the config defines the
    property "0", never a property "tools": the config given to the
    SDK has no [tools] and no [toolConfig]; the declarations sit under
    "0", next to [functionCallingConfig].  No array spread ever defines
    a property whose name does not start with a digit. *)
Theorem live_config_has_no_tools (Modality_AUDIO : JsValue)
    (GEMINI_INSTRUCTIONS : option JsString) :
  opt_get (live_config Modality_AUDIO GEMINI_INSTRUCTIONS) "tools" = JUndefined
  /\ opt_get (live_config Modality_AUDIO GEMINI_INSTRUCTIONS) "toolConfig"
     = JUndefined
  /\ opt_get (live_config Modality_AUDIO GEMINI_INSTRUCTIONS) "0"
     = JObject [(str "functionDeclarations", JArray functionDeclarations)]
  /\ opt_get (live_config Modality_AUDIO GEMINI_INSTRUCTIONS)
       "functionCallingConfig"
     = JObject [(str "mode", JString (str "ANY"))]
  /\ forall items target c key,
       (c < 48 \/ 57 < c)%N ->
       own_property (spread target (JArray items)) (c :: key)
       = own_property target (c :: key).
Proof.
  repeat split; try (vm_compute; reflexivity).
  intros items target c key Hc. now apply spread_array_keeps_named.
Qed.
